(** * Fleet lifecycle service: vehicle status versus trips, maintenance and bookings

    A shallow embedding of the storage layer ([MemStorage] and
    [DatabaseStorage], both implementing [IStorage]) and of the route
    handlers that guard it, followed by the lifecycle-consistency
    properties of the specification. *)

From Stdlib Require Import ZArith QArith String.
From stdpp Require Import base option list gmap strings sorting.

#[local] Open Scope string_scope.
#[local] Open Scope Z_scope.

(** ** Schema: enumerated columns *)

Inductive VehicleStatus := available | maintenance | in_use | out_of_service.
Inductive MaintenanceType := scheduled | unscheduled | repair.
Inductive MaintenanceStatus := m_pending | m_in_progress | m_completed.
Inductive TripStatus := planned | in_progress | completed | cancelled.
Inductive BookingStatus :=
  b_pending | b_approved | b_declined | b_cancelled | b_completed.
Inductive Role := admin | moderator.

#[global] Instance VehicleStatus_eq_dec : EqDecision VehicleStatus.
Proof. solve_decision. Defined.
#[global] Instance MaintenanceStatus_eq_dec : EqDecision MaintenanceStatus.
Proof. solve_decision. Defined.
#[global] Instance TripStatus_eq_dec : EqDecision TripStatus.
Proof. solve_decision. Defined.
#[global] Instance BookingStatus_eq_dec : EqDecision BookingStatus.
Proof. solve_decision. Defined.
#[global] Instance Role_eq_dec : EqDecision Role.
Proof. solve_decision. Defined.

(** The text stored in the [status] column of [vehicles]. *)
Definition VehicleStatus_text (s : VehicleStatus) : string :=
  match s with
  | available => "available"
  | maintenance => "maintenance"
  | in_use => "in_use"
  | out_of_service => "out_of_service"
  end.

(** ** Schema: time values

    A timestamp reaches the storage layer either as a string (the route's
    [dateSchema] turns every accepted value into one) or as a [Date]
    object.  A [Date] is represented by the constructor call that made it:
    [new Date(s)] for a string [s], or the clock reading of [new Date()]
    and of the column default [now()]. *)

Inductive JsDate := Date_of_string (s : string) | Date_at (ms : Z).
Inductive JsTime := TimeString (s : string) | TimeDate (d : JsDate).

(** JavaScript truthiness of a time value: only the empty string is falsy. *)
Definition time_truthy (t : JsTime) : bool :=
  match t with
  | TimeString s => negb (String.eqb s "")
  | TimeDate _ => true
  end.

(** [if (x && typeof x === 'string') x = new Date(x)] *)
Definition convert_time (t : JsTime) : JsTime :=
  match t with
  | TimeString s => if time_truthy t then TimeDate (Date_of_string s) else t
  | TimeDate _ => t
  end.

(** ** Schema: records

    A record below is the object the storage layer handles: the columns of
    the table without [id] (the id is the key under which the object is
    kept).  A column that is nullable or has a default may be missing from
    an insert payload and is an [option]; [DatabaseStorage] fills the
    defaults on insert, [MemStorage] keeps the object as given.  A [date]
    column is a calendar day, held as its day number; a [real] column is a
    rational. *)

Module Vehicle.
Record t := mk {
  make : string;
  model : string;
  year : Z;
  registrationNumber : string;
  vin : option string;
  color : option string;
  status : option VehicleStatus;
  mileage : option Z;
  fuelType : option string;
  assignedToId : option Z;
  purchaseDate : option Z;
  notes : option string
}.

(** [{ ...vehicle, status: s }] and [.set({ status: s })] *)
Definition set_status (s : VehicleStatus) (v : t) : t :=
  mk (make v) (model v) (year v) (registrationNumber v) (vin v) (color v)
     (Some s) (mileage v) (fuelType v) (assignedToId v) (purchaseDate v)
     (notes v).

(** [{ ...vehicle, status: s, mileage: m }] and
    [.set({ status: s, mileage: m })] *)
Definition set_status_mileage (s : VehicleStatus) (m : option Z) (v : t) : t :=
  mk (make v) (model v) (year v) (registrationNumber v) (vin v) (color v)
     (Some s) m (fuelType v) (assignedToId v) (purchaseDate v) (notes v).

(** Column defaults applied by the database on insert. *)
Definition with_defaults (v : t) : t :=
  mk (make v) (model v) (year v) (registrationNumber v) (vin v) (color v)
     (Some (default available (status v))) (Some (default 0 (mileage v)))
     (fuelType v) (assignedToId v) (purchaseDate v) (notes v).

(** [Partial<Vehicle>] as the route produces it (see [Maintenance.partial]
    for the reading of the options). *)
Record partial := mkPartial {
  p_make : option string;
  p_model : option string;
  p_year : option Z;
  p_registrationNumber : option string;
  p_vin : option (option string);
  p_color : option (option string);
  p_status : option VehicleStatus;
  p_mileage : option Z;
  p_fuelType : option (option string);
  p_assignedToId : option (option Z);
  p_purchaseDate : option (option Z);
  p_notes : option (option string)
}.

(** [{ ...vehicle, ...vehicleData }] and [.set(vehicleData)] *)
Definition merge (v : t) (p : partial) : t :=
  mk (default (make v) (p_make p))
     (default (model v) (p_model p))
     (default (year v) (p_year p))
     (default (registrationNumber v) (p_registrationNumber p))
     (default (vin v) (p_vin p))
     (default (color v) (p_color p))
     (match p_status p with Some s => Some s | None => status v end)
     (match p_mileage p with Some m => Some m | None => mileage v end)
     (default (fuelType v) (p_fuelType p))
     (default (assignedToId v) (p_assignedToId p))
     (default (purchaseDate v) (p_purchaseDate p))
     (default (notes v) (p_notes p)).

(** [filters?: { status?: string, make?: string, year?: number }] *)
Record filters := mkFilters {
  f_status : option string;
  f_make : option string;
  f_year : option Z
}.
End Vehicle.

Module Maintenance.
Record t := mk {
  vehicleId : Z;
  type : MaintenanceType;
  description : string;
  date : Z;
  cost : option Q;
  odometer : option Z;
  status : option MaintenanceStatus;
  notes : option string;
  completedAt : option JsTime
}.

(** [Partial<Maintenance>] as the route produces it: a key is absent
    ([None]) or holds a value; a nullable column may hold [null]
    ([Some None]). *)
Record partial := mkPartial {
  p_vehicleId : option Z;
  p_type : option MaintenanceType;
  p_description : option string;
  p_date : option Z;
  p_cost : option (option Q);
  p_odometer : option (option Z);
  p_status : option MaintenanceStatus;
  p_notes : option (option string);
  p_completedAt : option (option JsTime)
}.

Definition with_defaults (m : t) : t :=
  mk (vehicleId m) (type m) (description m) (date m) (cost m) (odometer m)
     (Some (default m_pending (status m))) (notes m) (completedAt m).

(** [{ ...maintenance, ...maintenanceData }] and [.set(maintenanceData)] *)
Definition merge (m : t) (p : partial) : t :=
  mk (default (vehicleId m) (p_vehicleId p))
     (default (type m) (p_type p))
     (default (description m) (p_description p))
     (default (date m) (p_date p))
     (default (cost m) (p_cost p))
     (default (odometer m) (p_odometer p))
     (match p_status p with Some s => Some s | None => status m end)
     (default (notes m) (p_notes p))
     (default (completedAt m) (p_completedAt p)).

Definition set_completedAt (c : option (option JsTime)) (p : partial) : partial :=
  mkPartial (p_vehicleId p) (p_type p) (p_description p) (p_date p)
            (p_cost p) (p_odometer p) (p_status p) (p_notes p) c.

(** The patch's [completedAt] is truthy. *)
Definition has_completedAt (p : partial) : bool :=
  match p_completedAt p with
  | Some (Some c) => time_truthy c
  | _ => false
  end.
End Maintenance.

Module Trip.
Record t := mk {
  vehicleId : Z;
  driverId : Z;
  startTime : JsTime;
  endTime : option JsTime;
  startOdometer : Z;
  endOdometer : option Z;
  fuelConsumed : option Q;
  purpose : option string;
  status : option TripStatus;
  notes : option string
}.

Record partial := mkPartial {
  p_vehicleId : option Z;
  p_driverId : option Z;
  p_startTime : option JsTime;
  p_endTime : option (option JsTime);
  p_startOdometer : option Z;
  p_endOdometer : option (option Z);
  p_fuelConsumed : option (option Q);
  p_purpose : option (option string);
  p_status : option TripStatus;
  p_notes : option (option string)
}.

Definition with_defaults (r : t) : t :=
  mk (vehicleId r) (driverId r) (startTime r) (endTime r) (startOdometer r)
     (endOdometer r) (fuelConsumed r) (purpose r)
     (Some (default planned (status r))) (notes r).

Definition merge (r : t) (p : partial) : t :=
  mk (default (vehicleId r) (p_vehicleId p))
     (default (driverId r) (p_driverId p))
     (default (startTime r) (p_startTime p))
     (default (endTime r) (p_endTime p))
     (default (startOdometer r) (p_startOdometer p))
     (default (endOdometer r) (p_endOdometer p))
     (default (fuelConsumed r) (p_fuelConsumed p))
     (default (purpose r) (p_purpose p))
     (match p_status p with Some s => Some s | None => status r end)
     (default (notes r) (p_notes p)).

Definition set_times (s : JsTime) (e : option JsTime) (r : t) : t :=
  mk (vehicleId r) (driverId r) s e (startOdometer r) (endOdometer r)
     (fuelConsumed r) (purpose r) (status r) (notes r).

Definition set_endTime (e : option (option JsTime)) (p : partial) : partial :=
  mkPartial (p_vehicleId p) (p_driverId p) (p_startTime p) e
            (p_startOdometer p) (p_endOdometer p) (p_fuelConsumed p)
            (p_purpose p) (p_status p) (p_notes p).

(** The patch's [endTime] is truthy. *)
Definition has_endTime (p : partial) : bool :=
  match p_endTime p with
  | Some (Some e) => time_truthy e
  | _ => false
  end.
End Trip.

Module Booking.
(** [InsertBooking]: the columns a caller supplies. *)
Record t := mk {
  vehicleId : Z;
  userId : Z;
  startTime : JsTime;
  endTime : JsTime;
  purpose : option string;
  status : option BookingStatus
}.

(** A stored booking: the payload and the server-assigned [createdAt]. *)
Record row := mkRow { createdAt : JsTime; data : t }.

Record partial := mkPartial {
  p_vehicleId : option Z;
  p_userId : option Z;
  p_startTime : option JsTime;
  p_endTime : option JsTime;
  p_purpose : option (option string);
  p_status : option BookingStatus
}.

Definition with_defaults (b : t) : t :=
  mk (vehicleId b) (userId b) (startTime b) (endTime b) (purpose b)
     (Some (default b_pending (status b))).

Definition merge (b : t) (p : partial) : t :=
  mk (default (vehicleId b) (p_vehicleId p))
     (default (userId b) (p_userId p))
     (default (startTime b) (p_startTime p))
     (default (endTime b) (p_endTime p))
     (default (purpose b) (p_purpose p))
     (match p_status p with Some s => Some s | None => status b end).

Definition merge_row (r : row) (p : partial) : row :=
  mkRow (createdAt r) (merge (data r) p).

Definition set_times (s e : JsTime) (b : t) : t :=
  mk (vehicleId b) (userId b) s e (purpose b) (status b).

Definition set_partial_times (s e : option JsTime) (p : partial) : partial :=
  mkPartial (p_vehicleId p) (p_userId p) s e (p_purpose p) (p_status p).
End Booking.

(** ** Thrown values and results

    The code throws plain [Error] objects with a message; a rejected
    database statement surfaces as an error raised by the driver. *)

Inductive Thrown := JsError (message : string) | StoreError.

Inductive Result (A : Type) := Ok (a : A) | Err (e : Thrown).
Arguments Ok {A} a.
Arguments Err {A} e.

(** ** DatabaseStorage: the relational store *)

(** The four tables touched by the lifecycle rules, each keyed by its
    [serial] primary key, and the sequences behind those keys. *)
Record Db := mkDb {
  db_vehicles : gmap Z Vehicle.t;
  db_maintenance : gmap Z Maintenance.t;
  db_trips : gmap Z Trip.t;
  db_bookings : gmap Z Booking.row;
  seq_vehicles : Z;
  seq_maintenance : Z;
  seq_trips : Z;
  seq_bookings : Z
}.

(** Two states hold the same rows in every table. *)
Definition same_rows (a b : Db) : Prop :=
  db_vehicles a = db_vehicles b ∧ db_maintenance a = db_maintenance b ∧
  db_trips a = db_trips b ∧ db_bookings a = db_bookings b.

(** What a rolled-back transaction leaves behind: every table as it was
    when the transaction began; sequence values already drawn are not
    handed back. *)
Definition rollback (before after : Db) : Db :=
  mkDb (db_vehicles before) (db_maintenance before) (db_trips before)
       (db_bookings before)
       (seq_vehicles after) (seq_maintenance after) (seq_trips after)
       (seq_bookings after).

(** Whether the store rejects the next statements: one flag per statement
    sent (or commit attempted), [true] meaning that it fails -- store
    unavailable, constraint violated, statement timed out.  Past the end of
    the plan nothing fails. *)
Definition Faults := list bool.

(** A computation against the store. *)
Definition Store (A : Type) : Type := Faults → Db → Result A * Db * Faults.

Definition ret {A} (a : A) : Store A := λ fs d, (Ok a, d, fs).

Definition throw {A} (e : Thrown) : Store A := λ fs d, (Err e, d, fs).

Definition bind {A B} (m : Store A) (k : A → Store B) : Store B :=
  λ fs d,
    match m fs d with
    | (Ok a, d', fs') => k a fs' d'
    | (Err e, d', fs') => (Err e, d', fs')
    end.

Notation "'let!' x ':=' m 'in' k" := (bind m (λ x, k))
  (at level 10, x name, m at level 100, k at level 200).
Notation "m ';;;' k" := (bind m (λ _, k))
  (at level 100, k at level 200, right associativity).

(** One statement sent to the store: it either fails as a whole or takes
    effect as a whole. *)
Definition statement {A} (f : Db → A * Db) : Store A :=
  λ fs d,
    match fs with
    | true :: fs' => (Err StoreError, d, fs')
    | _ => let '(a, d') := f d in (Ok a, d', tail fs)
    end.

(** [db.transaction(async (tx) => body)]: commits when [body] returns,
    rolls back when it throws (or when the commit itself fails). *)
Definition transaction {A} (body : Store A) : Store A :=
  λ fs d,
    match body fs d with
    | (Ok a, d', fs') =>
        match fs' with
        | true :: fs'' => (Err StoreError, rollback d d', fs'')
        | _ => (Ok a, d', tail fs')
        end
    | (Err e, d', fs') => (Err e, rollback d d', fs')
    end.

Arguments bind {A B} m k fs d /.
Arguments ret {A} a fs d /.
Arguments throw {A} e fs d /.
Arguments statement {A} f fs d /.
Arguments transaction {A} body fs d /.

(** [select().from(table).where(eq(table.id, k))] *)
Definition select_by_id {V} (tbl : gmap Z V) (k : Z) : list (Z * V) :=
  match tbl !! k with Some r => [(k, r)] | None => [] end.

(** [select().from(table).where(cond)] *)
Definition select_where {V} (cond : Z * V → bool) (tbl : gmap Z V) : list (Z * V) :=
  filter (λ kr, cond kr = true) (map_to_list tbl).

(** [update(table).set(f).where(eq(table.id, k)).returning()] *)
Definition update_by_id {V} (f : V → V) (tbl : gmap Z V) (k : Z)
  : list (Z * V) * gmap Z V :=
  match tbl !! k with
  | Some r => ([(k, f r)], <[k := f r]> tbl)
  | None => ([], tbl)
  end.

(** [delete(table).where(eq(table.id, k)).returning()] *)
Definition delete_by_id {V} (tbl : gmap Z V) (k : Z) : list (Z * V) * gmap Z V :=
  match tbl !! k with
  | Some r => ([(k, r)], delete k tbl)
  | None => ([], tbl)
  end.

Definition with_vehicles (f : gmap Z Vehicle.t → gmap Z Vehicle.t) (d : Db) : Db :=
  mkDb (f (db_vehicles d)) (db_maintenance d) (db_trips d) (db_bookings d)
       (seq_vehicles d) (seq_maintenance d) (seq_trips d) (seq_bookings d).
Definition with_maintenance (f : gmap Z Maintenance.t → gmap Z Maintenance.t) (d : Db) : Db :=
  mkDb (db_vehicles d) (f (db_maintenance d)) (db_trips d) (db_bookings d)
       (seq_vehicles d) (seq_maintenance d) (seq_trips d) (seq_bookings d).
Definition with_trips (f : gmap Z Trip.t → gmap Z Trip.t) (d : Db) : Db :=
  mkDb (db_vehicles d) (db_maintenance d) (f (db_trips d)) (db_bookings d)
       (seq_vehicles d) (seq_maintenance d) (seq_trips d) (seq_bookings d).
Definition with_bookings (f : gmap Z Booking.row → gmap Z Booking.row) (d : Db) : Db :=
  mkDb (db_vehicles d) (db_maintenance d) (db_trips d) (f (db_bookings d))
       (seq_vehicles d) (seq_maintenance d) (seq_trips d) (seq_bookings d).

Module Sql.
(** [insert(t).values(v).returning()]: the row gets the next value of the
    table's sequence as its id; the one inserted row is returned. *)
Definition insert_vehicle (v : Vehicle.t) : Store (Z * Vehicle.t) :=
  statement (λ d,
    let k := seq_vehicles d in
    let r := Vehicle.with_defaults v in
    ((k, r),
     mkDb (<[k := r]> (db_vehicles d)) (db_maintenance d) (db_trips d)
          (db_bookings d)
          (k + 1) (seq_maintenance d) (seq_trips d) (seq_bookings d))).

Definition insert_maintenance (m : Maintenance.t) : Store (Z * Maintenance.t) :=
  statement (λ d,
    let k := seq_maintenance d in
    let r := Maintenance.with_defaults m in
    ((k, r),
     mkDb (db_vehicles d) (<[k := r]> (db_maintenance d)) (db_trips d)
          (db_bookings d)
          (seq_vehicles d) (k + 1) (seq_trips d) (seq_bookings d))).

Definition insert_trip (t : Trip.t) : Store (Z * Trip.t) :=
  statement (λ d,
    let k := seq_trips d in
    let r := Trip.with_defaults t in
    ((k, r),
     mkDb (db_vehicles d) (db_maintenance d) (<[k := r]> (db_trips d))
          (db_bookings d)
          (seq_vehicles d) (seq_maintenance d) (k + 1) (seq_bookings d))).

(** [created_at] takes its default, the clock reading [now]. *)
Definition insert_booking (now : Z) (b : Booking.t) : Store (Z * Booking.row) :=
  statement (λ d,
    let k := seq_bookings d in
    let r := Booking.mkRow (TimeDate (Date_at now)) (Booking.with_defaults b) in
    ((k, r),
     mkDb (db_vehicles d) (db_maintenance d) (db_trips d)
          (<[k := r]> (db_bookings d))
          (seq_vehicles d) (seq_maintenance d) (seq_trips d) (k + 1))).

Definition select_vehicle (k : Z) : Store (list (Z * Vehicle.t)) :=
  statement (λ d, (select_by_id (db_vehicles d) k, d)).
Definition select_maintenance (k : Z) : Store (list (Z * Maintenance.t)) :=
  statement (λ d, (select_by_id (db_maintenance d) k, d)).
Definition select_trip (k : Z) : Store (list (Z * Trip.t)) :=
  statement (λ d, (select_by_id (db_trips d) k, d)).
Definition select_booking (k : Z) : Store (list (Z * Booking.row)) :=
  statement (λ d, (select_by_id (db_bookings d) k, d)).

Definition update_vehicle (f : Vehicle.t → Vehicle.t) (k : Z)
  : Store (list (Z * Vehicle.t)) :=
  statement (λ d,
    let '(rows, tbl) := update_by_id f (db_vehicles d) k in
    (rows, with_vehicles (λ _, tbl) d)).
Definition update_maintenance (f : Maintenance.t → Maintenance.t) (k : Z)
  : Store (list (Z * Maintenance.t)) :=
  statement (λ d,
    let '(rows, tbl) := update_by_id f (db_maintenance d) k in
    (rows, with_maintenance (λ _, tbl) d)).
Definition update_trip (f : Trip.t → Trip.t) (k : Z)
  : Store (list (Z * Trip.t)) :=
  statement (λ d,
    let '(rows, tbl) := update_by_id f (db_trips d) k in
    (rows, with_trips (λ _, tbl) d)).
Definition update_booking (f : Booking.row → Booking.row) (k : Z)
  : Store (list (Z * Booking.row)) :=
  statement (λ d,
    let '(rows, tbl) := update_by_id f (db_bookings d) k in
    (rows, with_bookings (λ _, tbl) d)).

Definition delete_vehicle (k : Z) : Store (list (Z * Vehicle.t)) :=
  statement (λ d,
    let '(rows, tbl) := delete_by_id (db_vehicles d) k in
    (rows, with_vehicles (λ _, tbl) d)).
Definition delete_maintenance (k : Z) : Store (list (Z * Maintenance.t)) :=
  statement (λ d,
    let '(rows, tbl) := delete_by_id (db_maintenance d) k in
    (rows, with_maintenance (λ _, tbl) d)).
Definition delete_trip (k : Z) : Store (list (Z * Trip.t)) :=
  statement (λ d,
    let '(rows, tbl) := delete_by_id (db_trips d) k in
    (rows, with_trips (λ _, tbl) d)).
Definition delete_booking (k : Z) : Store (list (Z * Booking.row)) :=
  statement (λ d,
    let '(rows, tbl) := delete_by_id (db_bookings d) k in
    (rows, with_bookings (λ _, tbl) d)).
End Sql.

Arguments Sql.insert_vehicle v fs d /.
Arguments Sql.insert_maintenance m fs d /.
Arguments Sql.insert_trip t fs d /.
Arguments Sql.insert_booking now b fs d /.
Arguments Sql.select_vehicle k fs d /.
Arguments Sql.select_maintenance k fs d /.
Arguments Sql.select_trip k fs d /.
Arguments Sql.select_booking k fs d /.
Arguments Sql.update_vehicle f k fs d /.
Arguments Sql.update_maintenance f k fs d /.
Arguments Sql.update_trip f k fs d /.
Arguments Sql.update_booking f k fs d /.
Arguments Sql.delete_vehicle k fs d /.
Arguments Sql.delete_maintenance k fs d /.
Arguments Sql.delete_trip k fs d /.
Arguments Sql.delete_booking k fs d /.

(** [ORDER BY date]: ascending. *)
Definition date_le (a b : Z * Maintenance.t) : Prop :=
  Maintenance.date a.2 ≤ Maintenance.date b.2.

#[global] Instance date_le_dec : RelDecision date_le.
Proof. intros a b. unfold date_le. apply _. Defined.

(** JavaScript truthiness of a number read from an integer column. *)
Definition number_truthy (n : option Z) : bool :=
  match n with Some x => negb (x =? 0) | None => false end.

(** [a || b] on numbers that may be missing. *)
Definition number_or (a b : option Z) : option Z :=
  if number_truthy a then a else b.

(** ** DatabaseStorage

    The storage is taken after its start-up ([ensureInitialized] returns at
    once); logging has no effect on the store and is left out; a
    [catch (e) { log; throw e }] wrapper is the identity. *)

Module DatabaseStorage.

Definition getVehicle (id : Z) : Store (option (Z * Vehicle.t)) :=
  let! result := Sql.select_vehicle id in ret (head result).

Definition createVehicle (vehicle : Vehicle.t) : Store (Z * Vehicle.t) :=
  Sql.insert_vehicle vehicle.

Definition deleteVehicle (id : Z) : Store bool :=
  let! result := Sql.delete_vehicle id in
  ret (bool_decide (0 < length result)%nat).

Definition getMaintenance (id : Z) : Store (option (Z * Maintenance.t)) :=
  let! result := Sql.select_maintenance id in ret (head result).

Definition createMaintenance (maintenanceData : Maintenance.t)
  : Store (Z * Maintenance.t) :=
  transaction (
    let! newMaintenance := Sql.insert_maintenance maintenanceData in
    (if decide (Maintenance.status maintenanceData ≠ Some m_completed) then
       let! vehicle := Sql.select_vehicle (Maintenance.vehicleId maintenanceData) in
       match vehicle with
       | v :: _ =>
           if decide (Vehicle.status v.2 = Some available) then
             Sql.update_vehicle (Vehicle.set_status maintenance)
               (Maintenance.vehicleId maintenanceData) ;;;
             ret ()
           else ret ()
       | [] => ret ()
       end
     else ret ()) ;;;
    ret newMaintenance).

Definition updateMaintenance (id : Z) (maintenanceData : Maintenance.partial)
  : Store (option (Z * Maintenance.t)) :=
  transaction (
    let! existingMaintenance := Sql.select_maintenance id in
    let processedData :=
      match Maintenance.p_completedAt maintenanceData with
      | Some (Some c) =>
          Maintenance.set_completedAt (Some (Some (convert_time c))) maintenanceData
      | _ => maintenanceData
      end in
    let! updatedMaintenance :=
      Sql.update_maintenance (λ m, Maintenance.merge m processedData) id in
    (if decide (Maintenance.p_status maintenanceData = Some m_completed) then
       let! maintenanceRecord := Sql.select_maintenance id in
       match maintenanceRecord with
       | r :: _ =>
           let! vehicle := Sql.select_vehicle (Maintenance.vehicleId r.2) in
           match vehicle with
           | v :: _ =>
               if decide (Vehicle.status v.2 = Some maintenance) then
                 Sql.update_vehicle (Vehicle.set_status available)
                   (Maintenance.vehicleId r.2) ;;;
                 ret ()
               else ret ()
           | [] => ret ()
           end
       | [] => ret ()
       end
     else ret ()) ;;;
    ret (head updatedMaintenance)).

Definition deleteMaintenance (id : Z) : Store bool :=
  let! result := Sql.delete_maintenance id in
  ret (bool_decide (0 < length result)%nat).

Definition listMaintenanceForVehicle (vehicleId : Z)
  : Store (list (Z * Maintenance.t)) :=
  statement (λ d,
    (select_where (λ r, bool_decide (Maintenance.vehicleId r.2 = vehicleId))
       (db_maintenance d), d)).

(** [where status != 'completed' and date >= CURRENT_DATE order by date];
    [today] is the store's current date.  A comparison with a missing
    value is not true in SQL. *)
Definition upcoming (today : Z) (r : Z * Maintenance.t) : bool :=
  match Maintenance.status r.2 with
  | Some s => bool_decide (s ≠ m_completed)
  | None => false
  end && bool_decide (today ≤ Maintenance.date r.2).

Definition listUpcomingMaintenance (today : Z) : Store (list (Z * Maintenance.t)) :=
  statement (λ d,
    (merge_sort date_le (select_where (upcoming today) (db_maintenance d)), d)).

Definition getTrip (id : Z) : Store (option (Z * Trip.t)) :=
  let! result := Sql.select_trip id in ret (head result).

Definition createTrip (tripData : Trip.t) : Store (Z * Trip.t) :=
  let processedData :=
    Trip.set_times (convert_time (Trip.startTime tripData))
                   (convert_time <$> Trip.endTime tripData) tripData in
  transaction (
    let! newTrip := Sql.insert_trip processedData in
    (if decide (Trip.status processedData = Some in_progress) then
       let! vehicle := Sql.select_vehicle (Trip.vehicleId processedData) in
       match vehicle with
       | v :: _ =>
           if decide (Vehicle.status v.2 = Some available) then
             Sql.update_vehicle (Vehicle.set_status in_use)
               (Trip.vehicleId processedData) ;;;
             ret ()
           else ret ()
       | [] => ret ()
       end
     else ret ()) ;;;
    ret newTrip).

(** [processedData]: the patch with a string [endTime] turned into a
    [Date]. *)
Definition processed_update (tripData : Trip.partial) : Trip.partial :=
  match Trip.p_endTime tripData with
  | Some (Some e) => Trip.set_endTime (Some (Some (convert_time e))) tripData
  | _ => tripData
  end.

Definition updateTrip (id : Z) (tripData : Trip.partial)
  : Store (option (Z * Trip.t)) :=
  let processedData := processed_update tripData in
  transaction (
    let! updatedTrip := Sql.update_trip (λ r, Trip.merge r processedData) id in
    match updatedTrip with
    | [] => ret None
    | u :: _ =>
        (if bool_decide (Trip.p_status processedData = Some completed)
            && Trip.has_endTime processedData then
           let! tripRecord := Sql.select_trip id in
           match tripRecord with
           | r :: _ =>
               let! vehicle := Sql.select_vehicle (Trip.vehicleId r.2) in
               match vehicle with
               | v :: _ =>
                   if decide (Vehicle.status v.2 = Some in_use) then
                     let newMileage :=
                       number_or (mjoin (Trip.p_endOdometer processedData))
                                 (Vehicle.mileage v.2) in
                     Sql.update_vehicle
                       (Vehicle.set_status_mileage available newMileage)
                       (Trip.vehicleId r.2) ;;;
                     ret ()
                   else ret ()
               | [] => ret ()
               end
           | [] => ret ()
           end
         else ret ()) ;;;
        ret (Some u)
    end).

Definition deleteTrip (id : Z) : Store bool :=
  let! result := Sql.delete_trip id in
  ret (bool_decide (0 < length result)%nat).

Definition listTripsForVehicle (vehicleId : Z) : Store (list (Z * Trip.t)) :=
  statement (λ d,
    (select_where (λ r, bool_decide (Trip.vehicleId r.2 = vehicleId))
       (db_trips d), d)).

Definition getBooking (id : Z) : Store (option (Z * Booking.row)) :=
  let! result := Sql.select_booking id in ret (head result).

(** The text interpolated for [vehicle[0].status]. *)
Definition status_text (s : option VehicleStatus) : string :=
  match s with Some x => VehicleStatus_text x | None => "null" end.

Definition createBooking (now : Z) (bookingData : Booking.t)
  : Store (Z * Booking.row) :=
  let processedData :=
    Booking.set_times (convert_time (Booking.startTime bookingData))
                      (convert_time (Booking.endTime bookingData)) bookingData in
  let! vehicle := Sql.select_vehicle (Booking.vehicleId processedData) in
  match vehicle with
  | [] => throw (JsError "Vehicle not found")
  | v :: _ =>
      if decide (Vehicle.status v.2 ≠ Some available) then
        throw (JsError ("Vehicle not available (status: "
                        ++ status_text (Vehicle.status v.2) ++ ")"))
      else
        Sql.insert_booking now processedData
  end.

Definition updateBooking (id : Z) (bookingData : Booking.partial)
  : Store (option (Z * Booking.row)) :=
  let processedData :=
    Booking.set_partial_times
      (convert_time <$> Booking.p_startTime bookingData)
      (convert_time <$> Booking.p_endTime bookingData) bookingData in
  let! result := Sql.update_booking (λ r, Booking.merge_row r processedData) id in
  ret (head result).

Definition deleteBooking (id : Z) : Store bool :=
  let! result := Sql.delete_booking id in
  ret (bool_decide (0 < length result)%nat).

Definition listBookingsForVehicle (vehicleId : Z) : Store (list (Z * Booking.row)) :=
  statement (λ d,
    (select_where
       (λ r, bool_decide (Booking.vehicleId (Booking.data r.2) = vehicleId))
       (db_bookings d), d)).


Definition updateVehicle (id : Z) (vehicleData : Vehicle.partial)
  : Store (option (Z * Vehicle.t)) :=
  let! result := Sql.update_vehicle (λ v, Vehicle.merge v vehicleData) id in
  ret (head result).

(** JavaScript truthiness of a filter value. *)
Definition string_given (o : option string) : bool :=
  match o with Some x => negb (String.eqb x "") | None => false end.

(** [eq(vehicles.status, s)]: the stored status text equals [s]. *)
Definition status_is (s : string) (r : Z * Vehicle.t) : bool :=
  match Vehicle.status r.2 with
  | Some x => String.eqb (VehicleStatus_text x) s
  | None => false
  end.

(** The [conditions] array built from the filters. *)
Definition conditions (f : Vehicle.filters) : list (Z * Vehicle.t → bool) :=
  (if string_given (Vehicle.f_status f)
   then [status_is (default "" (Vehicle.f_status f))] else []) ++
  (if string_given (Vehicle.f_make f)
   then [λ r, String.eqb (Vehicle.make r.2) (default "" (Vehicle.f_make f))]
   else []) ++
  (if number_truthy (Vehicle.f_year f)
   then [λ r, Vehicle.year r.2 =? default 0 (Vehicle.f_year f)] else []).

Definition listVehicles (f : option Vehicle.filters) : Store (list (Z * Vehicle.t)) :=
  match f with
  | None => statement (λ d, (map_to_list (db_vehicles d), d))
  | Some f =>
      match conditions f with
      | [] => statement (λ d, (map_to_list (db_vehicles d), d))
      | conds =>
          statement (λ d,
            (select_where (λ r, forallb (λ c, c r) conds) (db_vehicles d), d))
      end
  end.

Definition listTripsForDriver (driverId : Z) : Store (list (Z * Trip.t)) :=
  statement (λ d,
    (select_where (λ r, bool_decide (Trip.driverId r.2 = driverId))
       (db_trips d), d)).

Definition listActiveTrips : Store (list (Z * Trip.t)) :=
  statement (λ d,
    (select_where (λ r, bool_decide (Trip.status r.2 = Some in_progress))
       (db_trips d), d)).

Definition listBookingsForUser (userId : Z) : Store (list (Z * Booking.row)) :=
  statement (λ d,
    (select_where
       (λ r, bool_decide (Booking.userId (Booking.data r.2) = userId))
       (db_bookings d), d)).

Definition listAllBookings : Store (list (Z * Booking.row)) :=
  statement (λ d, (map_to_list (db_bookings d), d)).

End DatabaseStorage.

(** ** MemStorage: JavaScript [Map]s and counters *)

(** A [Map<number, V>]: entries in insertion order, one per key. *)
Module JsMap.
Definition t (V : Type) : Type := list (Z * V).

Fixpoint get {V} (m : t V) (k : Z) : option V :=
  match m with
  | [] => None
  | (k', v) :: m' => if decide (k' = k) then Some v else get m' k
  end.

(** [set] keeps the position of a key already present, and appends a new
    key. *)
Fixpoint set {V} (m : t V) (k : Z) (v : V) : t V :=
  match m with
  | [] => [(k, v)]
  | (k', v') :: m' =>
      if decide (k' = k) then (k, v) :: m' else (k', v') :: set m' k v
  end.

Fixpoint delete {V} (m : t V) (k : Z) : bool * t V :=
  match m with
  | [] => (false, [])
  | (k', v') :: m' =>
      if decide (k' = k) then (true, m')
      else let '(b, m'') := delete m' k in (b, (k', v') :: m'')
  end.

(** [Array.from(m.values())]; every stored object carries its key as
    [id]. *)
Definition values {V} (m : t V) : list (Z * V) := m.
End JsMap.

Record Mem := mkMem {
  vehicles : JsMap.t Vehicle.t;
  maintenances : JsMap.t Maintenance.t;
  trips : JsMap.t Trip.t;
  bookings : JsMap.t Booking.row;
  vehicleIdCounter : Z;
  maintenanceIdCounter : Z;
  tripIdCounter : Z;
  bookingIdCounter : Z
}.

(** The maps and counters as the constructor leaves them. *)
Definition empty_mem : Mem := mkMem [] [] [] [] 1 1 1 1.

(** [new Date(d).getTime()] of a calendar day. *)
Definition getTime (day : Z) : Z := day * 86400000.

(** The comparator [(a, b) => getTime(a.date) - getTime(b.date)] puts [a]
    no later than [b]. *)
Definition time_le (a b : Z * Maintenance.t) : Prop :=
  getTime (Maintenance.date a.2) - getTime (Maintenance.date b.2) ≤ 0.

#[global] Instance time_le_dec : RelDecision time_le.
Proof. intros a b. unfold time_le. apply _. Defined.

(** Every stored object carries the key it is stored under as its [id], so
    [this.vehicles.set(vehicle.id, ...)] writes back under the key the vehicle
    was read from. *)
Module MemStorage.

Definition set_vehicles (vs : JsMap.t Vehicle.t) (s : Mem) : Mem :=
  mkMem vs (maintenances s) (trips s) (bookings s) (vehicleIdCounter s)
        (maintenanceIdCounter s) (tripIdCounter s) (bookingIdCounter s).

Definition getVehicle (id : Z) (s : Mem) : option Vehicle.t :=
  JsMap.get (vehicles s) id.

Definition createVehicle (insertVehicle : Vehicle.t) (s : Mem)
  : (Z * Vehicle.t) * Mem :=
  let id := vehicleIdCounter s in
  ((id, insertVehicle),
   mkMem (JsMap.set (vehicles s) id insertVehicle) (maintenances s) (trips s)
         (bookings s) (id + 1) (maintenanceIdCounter s) (tripIdCounter s)
         (bookingIdCounter s)).

Definition deleteVehicle (id : Z) (s : Mem) : bool * Mem :=
  let '(b, vs) := JsMap.delete (vehicles s) id in (b, set_vehicles vs s).

Definition getMaintenance (id : Z) (s : Mem) : option Maintenance.t :=
  JsMap.get (maintenances s) id.

Definition createMaintenance (insertMaintenance : Maintenance.t) (s : Mem)
  : (Z * Maintenance.t) * Mem :=
  let id := maintenanceIdCounter s in
  let s1 :=
    mkMem (vehicles s) (JsMap.set (maintenances s) id insertMaintenance)
          (trips s) (bookings s) (vehicleIdCounter s) (id + 1)
          (tripIdCounter s) (bookingIdCounter s) in
  let s2 :=
    match JsMap.get (vehicles s1) (Maintenance.vehicleId insertMaintenance) with
    | Some vehicle =>
        if decide (Vehicle.status vehicle = Some available) then
          set_vehicles
            (JsMap.set (vehicles s1) (Maintenance.vehicleId insertMaintenance)
                       (Vehicle.set_status maintenance vehicle)) s1
        else s1
    | None => s1
    end in
  ((id, insertMaintenance), s2).

Definition updateMaintenance (id : Z) (maintenanceData : Maintenance.partial)
    (s : Mem) : option (Z * Maintenance.t) * Mem :=
  match JsMap.get (maintenances s) id with
  | None => (None, s)
  | Some maintenance0 =>
      let updatedMaintenance := Maintenance.merge maintenance0 maintenanceData in
      let s1 :=
        mkMem (vehicles s) (JsMap.set (maintenances s) id updatedMaintenance)
              (trips s) (bookings s) (vehicleIdCounter s)
              (maintenanceIdCounter s) (tripIdCounter s) (bookingIdCounter s) in
      let s2 :=
        if bool_decide (Maintenance.p_status maintenanceData = Some m_completed)
           && Maintenance.has_completedAt maintenanceData then
          match JsMap.get (vehicles s1) (Maintenance.vehicleId maintenance0) with
          | Some vehicle =>
              if decide (Vehicle.status vehicle = Some maintenance) then
                set_vehicles
                  (JsMap.set (vehicles s1) (Maintenance.vehicleId maintenance0)
                             (Vehicle.set_status available vehicle)) s1
              else s1
          | None => s1
          end
        else s1 in
      (Some (id, updatedMaintenance), s2)
  end.

Definition listUpcomingMaintenance (s : Mem) : list (Z * Maintenance.t) :=
  merge_sort time_le
    (filter (λ m, Maintenance.status m.2 ≠ Some m_completed)
            (JsMap.values (maintenances s))).

Definition getTrip (id : Z) (s : Mem) : option Trip.t :=
  JsMap.get (trips s) id.

Definition createTrip (insertTrip : Trip.t) (s : Mem) : (Z * Trip.t) * Mem :=
  let id := tripIdCounter s in
  let s1 :=
    mkMem (vehicles s) (maintenances s) (JsMap.set (trips s) id insertTrip)
          (bookings s) (vehicleIdCounter s) (maintenanceIdCounter s) (id + 1)
          (bookingIdCounter s) in
  let s2 :=
    match JsMap.get (vehicles s1) (Trip.vehicleId insertTrip) with
    | Some vehicle =>
        if decide (Vehicle.status vehicle = Some available) then
          set_vehicles
            (JsMap.set (vehicles s1) (Trip.vehicleId insertTrip)
                       (Vehicle.set_status in_use vehicle)) s1
        else s1
    | None => s1
    end in
  ((id, insertTrip), s2).

Definition updateTrip (id : Z) (tripData : Trip.partial) (s : Mem)
  : option (Z * Trip.t) * Mem :=
  match JsMap.get (trips s) id with
  | None => (None, s)
  | Some trip =>
      let updatedTrip := Trip.merge trip tripData in
      let s1 :=
        mkMem (vehicles s) (maintenances s) (JsMap.set (trips s) id updatedTrip)
              (bookings s) (vehicleIdCounter s) (maintenanceIdCounter s)
              (tripIdCounter s) (bookingIdCounter s) in
      let s2 :=
        if bool_decide (Trip.p_status tripData = Some completed)
           && Trip.has_endTime tripData then
          match JsMap.get (vehicles s1) (Trip.vehicleId trip) with
          | Some vehicle =>
              if decide (Vehicle.status vehicle = Some in_use) then
                set_vehicles
                  (JsMap.set (vehicles s1) (Trip.vehicleId trip)
                     (Vehicle.set_status_mileage available
                        (number_or (mjoin (Trip.p_endOdometer tripData))
                                   (Vehicle.mileage vehicle))
                        vehicle)) s1
              else s1
          | None => s1
          end
        else s1 in
      (Some (id, updatedTrip), s2)
  end.

Definition getBooking (id : Z) (s : Mem) : option Booking.row :=
  JsMap.get (bookings s) id.

Definition createBooking (now : Z) (insertBooking : Booking.t) (s : Mem)
  : (Z * Booking.row) * Mem :=
  let id := bookingIdCounter s in
  let booking := Booking.mkRow (TimeDate (Date_at now)) insertBooking in
  ((id, booking),
   mkMem (vehicles s) (maintenances s) (trips s)
         (JsMap.set (bookings s) id booking) (vehicleIdCounter s)
         (maintenanceIdCounter s) (tripIdCounter s) (id + 1)).

Definition updateBooking (id : Z) (bookingData : Booking.partial) (s : Mem)
  : option (Z * Booking.row) * Mem :=
  match JsMap.get (bookings s) id with
  | None => (None, s)
  | Some booking =>
      let updatedBooking := Booking.merge_row booking bookingData in
      (Some (id, updatedBooking),
       mkMem (vehicles s) (maintenances s) (trips s)
             (JsMap.set (bookings s) id updatedBooking) (vehicleIdCounter s)
             (maintenanceIdCounter s) (tripIdCounter s) (bookingIdCounter s))
  end.


Definition updateVehicle (id : Z) (vehicleData : Vehicle.partial) (s : Mem)
  : option (Z * Vehicle.t) * Mem :=
  match JsMap.get (vehicles s) id with
  | None => (None, s)
  | Some vehicle =>
      let updatedVehicle := Vehicle.merge vehicle vehicleData in
      (Some (id, updatedVehicle),
       set_vehicles (JsMap.set (vehicles s) id updatedVehicle) s)
  end.

Definition listVehicles (f : option Vehicle.filters) (s : Mem)
  : list (Z * Vehicle.t) :=
  let vehicles0 := JsMap.values (vehicles s) in
  match f with
  | None => vehicles0
  | Some f =>
      let vehicles1 :=
        if DatabaseStorage.string_given (Vehicle.f_status f) then
          filter (λ v, DatabaseStorage.status_is
                         (default "" (Vehicle.f_status f)) v = true) vehicles0
        else vehicles0 in
      let vehicles2 :=
        if DatabaseStorage.string_given (Vehicle.f_make f) then
          filter (λ v, Vehicle.make v.2 = default "" (Vehicle.f_make f)) vehicles1
        else vehicles1 in
      if number_truthy (Vehicle.f_year f) then
        filter (λ v, Vehicle.year v.2 = default 0 (Vehicle.f_year f)) vehicles2
      else vehicles2
  end.

Definition deleteMaintenance (id : Z) (s : Mem) : bool * Mem :=
  let '(b, ms) := JsMap.delete (maintenances s) id in
  (b, mkMem (vehicles s) ms (trips s) (bookings s) (vehicleIdCounter s)
            (maintenanceIdCounter s) (tripIdCounter s) (bookingIdCounter s)).

Definition listMaintenanceForVehicle (vehicleId : Z) (s : Mem)
  : list (Z * Maintenance.t) :=
  filter (λ m, Maintenance.vehicleId m.2 = vehicleId)
         (JsMap.values (maintenances s)).

Definition deleteTrip (id : Z) (s : Mem) : bool * Mem :=
  let '(b, ts) := JsMap.delete (trips s) id in
  (b, mkMem (vehicles s) (maintenances s) ts (bookings s) (vehicleIdCounter s)
            (maintenanceIdCounter s) (tripIdCounter s) (bookingIdCounter s)).

Definition listTripsForVehicle (vehicleId : Z) (s : Mem) : list (Z * Trip.t) :=
  filter (λ t, Trip.vehicleId t.2 = vehicleId) (JsMap.values (trips s)).

Definition listTripsForDriver (driverId : Z) (s : Mem) : list (Z * Trip.t) :=
  filter (λ t, Trip.driverId t.2 = driverId) (JsMap.values (trips s)).

Definition listActiveTrips (s : Mem) : list (Z * Trip.t) :=
  filter (λ t, Trip.status t.2 = Some in_progress) (JsMap.values (trips s)).

Definition deleteBooking (id : Z) (s : Mem) : bool * Mem :=
  let '(b, bs) := JsMap.delete (bookings s) id in
  (b, mkMem (vehicles s) (maintenances s) (trips s) bs (vehicleIdCounter s)
            (maintenanceIdCounter s) (tripIdCounter s) (bookingIdCounter s)).

Definition listBookingsForVehicle (vehicleId : Z) (s : Mem)
  : list (Z * Booking.row) :=
  filter (λ b, Booking.vehicleId (Booking.data b.2) = vehicleId)
         (JsMap.values (bookings s)).

Definition listBookingsForUser (userId : Z) (s : Mem) : list (Z * Booking.row) :=
  filter (λ b, Booking.userId (Booking.data b.2) = userId)
         (JsMap.values (bookings s)).

Definition listAllBookings (s : Mem) : list (Z * Booking.row) :=
  JsMap.values (bookings s).

End MemStorage.

(** ** Route handlers over the exported [storage], a [DatabaseStorage] *)

Record User := mkUser { user_id : Z; role : Role }.

Inductive Body :=
| Message (message : string)
| TripJson (trip : Z * Trip.t)
| BookingJson (booking : Z * Booking.row).

Record Response := mkResponse { code : Z; body : Body }.

(** [try { m } catch (err) { h err }] *)
Definition try_catch {A} (m : Store A) (h : Thrown → Store A) : Store A :=
  λ fs d,
    match m fs d with
    | (Err e, d', fs') => h e fs' d'
    | r => r
    end.

Arguments try_catch {A} m h fs d /.

(** A request body after [schema.parse]: rejected with a [ZodError], or the
    typed payload. *)
Inductive Parsed (A : Type) := ZodError | Valid (a : A).
Arguments ZodError {A}.
Arguments Valid {A} a.

(** The figures of [GET /api/dashboard/stats]. *)
Record DashboardStats := mkStats {
  totalVehicles : nat;
  availableVehicles : nat;
  inMaintenance : nat;
  outOfService : nat;
  activeTrips : nat
}.

(** What a handler sends back: a JSON response, a bare status
    ([res.status(c).send()]), or the dashboard figures. *)
Inductive Reply :=
| Json (r : Response)
| NoContent (code : Z)
| StatsJson (stats : DashboardStats).

Module Routes.

(** [checkRole(roles)] *)
Definition checkRole (roles : list Role) (user : option User)
    (next : Store Response) : Store Response :=
  match user with
  | None => ret (mkResponse 401 (Message "Unauthorized"))
  | Some u =>
      if bool_decide (role u ∈ roles) then next
      else ret (mkResponse 403 (Message "Forbidden"))
  end.

Definition adminOnly := checkRole [admin].

(** [app.delete("/api/vehicles/:id", adminOnly, ...)] *)
Definition delete_vehicle (user : option User) (id : Z) : Store Response :=
  adminOnly user (
    try_catch (
      let! maintenanceRecords := DatabaseStorage.listMaintenanceForVehicle id in
      if bool_decide (0 < length maintenanceRecords)%nat then
        ret (mkResponse 400 (Message
          "Cannot delete vehicle with maintenance records. Remove maintenance records first."))
      else
      let! trips := DatabaseStorage.listTripsForVehicle id in
      if bool_decide (0 < length trips)%nat then
        ret (mkResponse 400 (Message
          "Cannot delete vehicle with trip records. Remove trip records first."))
      else
      let! bookings := DatabaseStorage.listBookingsForVehicle id in
      if bool_decide (0 < length bookings)%nat then
        ret (mkResponse 400 (Message
          "Cannot delete vehicle with booking records. Remove booking records first."))
      else
      let! success := DatabaseStorage.deleteVehicle id in
      if negb success then
        ret (mkResponse 404 (Message "Vehicle not found"))
      else
        ret (mkResponse 200 (Message "Vehicle deleted successfully")))
    (λ _, ret (mkResponse 500 (Message "Error deleting vehicle")))).

(** [app.put("/api/trips/:id", ...)] *)
Definition put_trip (user : option User) (id : Z) (reqBody : Parsed Trip.partial)
  : Store Response :=
  match user with
  | None => ret (mkResponse 401 (Message "Unauthorized"))
  | Some u =>
      let! trip := DatabaseStorage.getTrip id in
      match trip with
      | None => ret (mkResponse 404 (Message "Trip not found"))
      | Some t =>
          if bool_decide (user_id u ≠ Trip.driverId t.2)
             && bool_decide (role u ≠ admin) && bool_decide (role u ≠ moderator)
          then ret (mkResponse 403 (Message "Forbidden"))
          else
            match reqBody with
            | ZodError => ret (mkResponse 400 (Message "Invalid trip data"))
            | Valid tripData =>
                try_catch (
                  let! updatedTrip := DatabaseStorage.updateTrip id tripData in
                  match updatedTrip with
                  | None => ret (mkResponse 404 (Message "Trip not found"))
                  | Some t' => ret (mkResponse 200 (TripJson t'))
                  end)
                (λ _, ret (mkResponse 500 (Message "Internal server error")))
            end
      end
  end.

(** [errorMessage.includes(needle)] *)
Definition includes (needle hay : string) : bool :=
  match String.index 0 needle hay with Some _ => true | None => false end.

(** [app.post("/api/bookings", ...)] *)
Definition post_booking (now : Z) (user : option User) (reqBody : Parsed Booking.t)
  : Store Response :=
  match user with
  | None => ret (mkResponse 401 (Message "Unauthorized"))
  | Some _ =>
      match reqBody with
      | ZodError => ret (mkResponse 400 (Message "Invalid booking data"))
      | Valid bookingData =>
          try_catch (
            let! booking := DatabaseStorage.createBooking now bookingData in
            ret (mkResponse 201 (BookingJson booking)))
          (λ err,
            match err with
            | JsError errorMessage =>
                if includes "Vehicle not found" errorMessage then
                  ret (mkResponse 404 (Message errorMessage))
                else if includes "Vehicle not available" errorMessage then
                  ret (mkResponse 422 (Message errorMessage))
                else ret (mkResponse 500 (Message "Internal server error"))
            | StoreError => ret (mkResponse 500 (Message "Internal server error"))
            end)
      end
  end.


(** [checkRole(roles)] in front of a handler that may also send a bare
    status. *)
Definition checkRole_reply (roles : list Role) (user : option User)
    (next : Store Reply) : Store Reply :=
  match user with
  | None => ret (Json (mkResponse 401 (Message "Unauthorized")))
  | Some u =>
      if bool_decide (role u ∈ roles) then next
      else ret (Json (mkResponse 403 (Message "Forbidden")))
  end.

Definition adminModOnly := checkRole [admin; moderator].

(** [app.post("/api/trips", adminModOnly, ...)] *)
Definition post_trip (user : option User) (reqBody : Parsed Trip.t)
  : Store Response :=
  adminModOnly user (
    match reqBody with
    | ZodError => ret (mkResponse 400 (Message "Invalid trip data"))
    | Valid tripData =>
        try_catch (
          let! trip := DatabaseStorage.createTrip tripData in
          ret (mkResponse 201 (TripJson trip)))
        (λ _, ret (mkResponse 500 (Message "Internal server error")))
    end).

(** [app.delete("/api/trips/:id", adminOnly, ...)] *)
Definition delete_trip (user : option User) (id : Z) : Store Reply :=
  checkRole_reply [admin] user (
    let! success := DatabaseStorage.deleteTrip id in
    if negb success then
      ret (Json (mkResponse 404 (Message "Trip not found")))
    else ret (NoContent 204)).

(** [app.delete("/api/maintenance/:id", adminOnly, ...)] *)
Definition delete_maintenance (user : option User) (id : Z) : Store Reply :=
  checkRole_reply [admin] user (
    let! success := DatabaseStorage.deleteMaintenance id in
    if negb success then
      ret (Json (mkResponse 404 (Message "Maintenance record not found")))
    else ret (NoContent 204)).

(** [app.delete("/api/bookings/:id", adminOnly, ...)] *)
Definition delete_booking (user : option User) (id : Z) : Store Reply :=
  checkRole_reply [admin] user (
    let! success := DatabaseStorage.deleteBooking id in
    if negb success then
      ret (Json (mkResponse 404 (Message "Booking not found")))
    else ret (NoContent 204)).


(** [vehicles.filter(v => v.status === s).length] *)
Definition count_status (s : VehicleStatus) (vs : list (Z * Vehicle.t)) : nat :=
  length (filter (λ v, Vehicle.status v.2 = Some s) vs).

(** [app.get("/api/dashboard/stats", ...)] *)
Definition dashboard_stats (user : option User) : Store Reply :=
  match user with
  | None => ret (Json (mkResponse 401 (Message "Unauthorized")))
  | Some _ =>
      let! vehicles := DatabaseStorage.listVehicles None in
      let! activeTrips := DatabaseStorage.listActiveTrips in
      ret (StatsJson
             (mkStats (length vehicles)
                      (count_status available vehicles)
                      (count_status maintenance vehicles)
                      (count_status out_of_service vehicles)
                      (length activeTrips)))
  end.

End Routes.

(** ** User accounts

    The [users] table and the routes that manage it.  The table is not
    touched by the lifecycle operations above and is kept in a store of its
    own, with the same reading of statements and fault plans. *)

Module Account.
(** [InsertUser] *)
Record insert := mkInsert {
  i_username : string;
  i_password : string;
  i_name : string;
  i_role : option Role;
  i_position : option string;
  i_email : option string;
  i_phone : option string
}.

(** [User] *)
Record t := mk {
  username : string;
  password : string;
  name : string;
  role : Role;
  position : option string;
  email : option string;
  phone : option string
}.

(** [x || null] on an optional string: the empty string is falsy. *)
Definition or_null (o : option string) : option string :=
  match o with
  | Some x => if String.eqb x "" then None else Some x
  | None => None
  end.

(** The object both storages build in [createUser]. *)
Definition of_insert (u : insert) : t :=
  mk (i_username u) (i_password u) (i_name u) (default moderator (i_role u))
     (or_null (i_position u)) (or_null (i_email u)) (or_null (i_phone u)).

(** [{ ...userData, password: hashed }] *)
Definition set_password (hashed : string) (u : insert) : insert :=
  mkInsert (i_username u) hashed (i_name u) (i_role u) (i_position u)
           (i_email u) (i_phone u).
End Account.

Record UserDb := mkUserDb {
  db_users : gmap Z Account.t;
  seq_users : Z
}.

(** A computation against the users table. *)
Definition UserStore (A : Type) : Type :=
  Faults → UserDb → Result A * UserDb * Faults.

Definition uret {A} (a : A) : UserStore A := λ fs d, (Ok a, d, fs).

Definition ubind {A B} (m : UserStore A) (k : A → UserStore B) : UserStore B :=
  λ fs d,
    match m fs d with
    | (Ok a, d', fs') => k a fs' d'
    | (Err e, d', fs') => (Err e, d', fs')
    end.

Definition ustatement {A} (f : UserDb → A * UserDb) : UserStore A :=
  λ fs d,
    match fs with
    | true :: fs' => (Err StoreError, d, fs')
    | _ => let '(a, d') := f d in (Ok a, d', tail fs)
    end.

Definition utry_catch {A} (m : UserStore A) (h : Thrown → UserStore A)
  : UserStore A :=
  λ fs d,
    match m fs d with
    | (Err e, d', fs') => h e fs' d'
    | r => r
    end.

Arguments uret {A} a fs d /.
Arguments ubind {A B} m k fs d /.
Arguments ustatement {A} f fs d /.
Arguments utry_catch {A} m h fs d /.

Module UserStorage.
(** [DatabaseStorage.getUser] *)
Definition getUser (id : Z) : UserStore (option (Z * Account.t)) :=
  ustatement (λ d, (head (select_by_id (db_users d) id), d)).

(** [DatabaseStorage.getUserByUsername] *)
Definition getUserByUsername (username : string)
  : UserStore (option (Z * Account.t)) :=
  ustatement (λ d,
    (head (select_where (λ r, String.eqb (Account.username r.2) username)
             (db_users d)), d)).

(** [DatabaseStorage.createUser] *)
Definition createUser (insertUser : Account.insert) : UserStore (Z * Account.t) :=
  let userToCreate := Account.of_insert insertUser in
  ustatement (λ d,
    let k := seq_users d in
    ((k, userToCreate), mkUserDb (<[k := userToCreate]> (db_users d)) (k + 1))).

(** [DatabaseStorage.deleteUser] *)
Definition deleteUser (id : Z) : UserStore bool :=
  ustatement (λ d,
    let '(rows, tbl) := delete_by_id (db_users d) id in
    (bool_decide (0 < length rows)%nat, mkUserDb tbl (seq_users d))).

(** [DatabaseStorage.listUsers] *)
Definition listUsers : UserStore (list (Z * Account.t)) :=
  ustatement (λ d, (map_to_list (db_users d), d)).
End UserStorage.

Module UserRoutes.
(** [app.post("/api/users", ...)] as registered by [setupAuth], the first
    handler on that path.  [hashPassword] (scrypt with a fresh salt) is a
    parameter; the response carries the account without its password, here
    the id alone.  An error that is not a [ZodError] goes to [next]. *)
Definition post_user (hashPassword : string → string) (user : option User)
    (reqBody : Parsed Account.insert) : UserStore (Z * option Z) :=
  match user with
  | Some u =>
      if bool_decide (role u ≠ admin) then uret (403, None)
      else
        match reqBody with
        | ZodError => uret (400, None)
        | Valid userData =>
            ubind (UserStorage.getUserByUsername (Account.i_username userData))
              (λ existingUser,
                match existingUser with
                | Some _ => uret (400, None)
                | None =>
                    let hashedPassword :=
                      hashPassword (Account.i_password userData) in
                    ubind (UserStorage.createUser
                             (Account.set_password hashedPassword userData))
                      (λ created, uret (201, Some created.1))
                end)
        end
  | None => uret (403, None)
  end.

(** [app.delete("/api/users/:id", adminOnly, ...)]: the status sent. *)
Definition delete_user (user : option User) (id : Z) : UserStore Z :=
  match user with
  | None => uret 401
  | Some u =>
      if negb (bool_decide (role u ∈ [admin])) then uret 403
      else if bool_decide (user_id u = id) then uret 400
      else
        ubind (UserStorage.getUser id) (λ found,
          match found with
          | None => uret 404
          | Some a =>
              if bool_decide (Account.role a.2 = admin) then uret 403
              else
                utry_catch
                  (ubind (UserStorage.deleteUser id) (λ success,
                     if success then uret 200 else uret 500))
                  (λ _, uret 500)
          end)
  end.
End UserRoutes.

(** * Vocabulary of the properties, and sample data *)

(** A computation that succeeded under some fault plan met no fault, so it
    behaves the same under the empty plan. *)
Definition fault_stable {A} (m : Store A) : Prop :=
  ∀ fs d a d' fs', m fs d = (Ok a, d', fs') → m [] d = (Ok a, d', []).

(** The outcome of [op] under any fault plan: a failure that leaves every
    table as it was, or the outcome of the fault-free run with all of its
    writes. *)
Definition all_or_nothing {A} (op : Store A) : Prop :=
  ∀ fs d,
    match op fs d with
    | (Err _, d', _) => same_rows d' d
    | (Ok a, d', _) => op [] d = (Ok a, d', [])
    end.

Definition sample_vehicle (s : VehicleStatus) (mileage : Z) : Vehicle.t :=
  Vehicle.mk "Toyota" "Corolla" 2020 "ABC-123" None None (Some s) (Some mileage)
             None None None None.

(** A store holding vehicle 1 only. *)
Definition fleet (s : VehicleStatus) (mileage : Z) : Db :=
  mkDb {[ 1 := sample_vehicle s mileage ]} ∅ ∅ ∅ 2 1 1 1.

Definition sample_trip (s : TripStatus) (startOdometer : Z) : Trip.t :=
  Trip.mk 1 7 (TimeString "2024-01-01T08:00:00.000Z") None startOdometer None
          None None (Some s) None.

(** A patch completing a trip: [{ status: 'completed', endTime: e,
    endOdometer: X, ... }] with a truthy [endTime], not moving the trip to
    another vehicle. *)
Definition completes_trip (p : Trip.partial) (X : Z) : Prop :=
  Trip.p_status p = Some completed ∧
  Trip.has_endTime p = true ∧
  Trip.p_endOdometer p = Some (Some X) ∧
  Trip.p_vehicleId p = None.

Definition complete_trip (X : Z) : Trip.partial :=
  Trip.mkPartial None None None (Some (Some (TimeString "2024-01-01T17:00:00.000Z")))
                 None (Some (Some X)) None None (Some completed) None.

(** A store with vehicle 1 [in_use] at the given mileage and trip 1 in
    progress on it. *)
Definition fleet_on_trip (mileage startOdometer : Z) : Db :=
  mkDb {[ 1 := sample_vehicle in_use mileage ]} ∅
       {[ 1 := sample_trip in_progress startOdometer ]} ∅ 2 1 2 1.

Definition sample_maintenance (s : MaintenanceStatus) (day : Z) : Maintenance.t :=
  Maintenance.mk 1 scheduled "Oil change" day None None (Some s) None None.

Definition complete_maintenance : Maintenance.partial :=
  Maintenance.mkPartial None None None None (Some (Some 45%Q)) None
    (Some m_completed) None (Some (Some (TimeString "2024-01-02T10:00:00.000Z"))).

(** Some maintenance, trip or booking record references vehicle [id]. *)
Definition has_dependents (d : Db) (id : Z) : Prop :=
  (∃ k m, db_maintenance d !! k = Some m ∧ Maintenance.vehicleId m = id) ∨
  (∃ k t, db_trips d !! k = Some t ∧ Trip.vehicleId t = id) ∨
  (∃ k b, db_bookings d !! k = Some b ∧ Booking.vehicleId (Booking.data b) = id).

Definition sample_booking (s : BookingStatus) : Booking.row :=
  Booking.mkRow (TimeDate (Date_at 1704096000000))
    (Booking.mk 1 5 (TimeString "2024-01-02T08:00:00.000Z")
                (TimeString "2024-01-02T18:00:00.000Z") None (Some s)).

Definition set_booking_status (s : BookingStatus) : Booking.partial :=
  Booking.mkPartial None None None None None (Some s).

Definition sample_booking_request : Booking.t :=
  Booking.mk 1 5 (TimeString "2024-01-02T08:00:00.000Z")
             (TimeString "2024-01-02T18:00:00.000Z") None None.

(** A [MemStorage] holding vehicle 1 only. *)
Definition mem_fleet (s : VehicleStatus) (mileage : Z) : Mem :=
  mkMem [(1, sample_vehicle s mileage)] [] [] [] 2 1 1 1.

(** Every id in use lies below the sequence of its table. *)
Definition db_wf (d : Db) : Prop :=
  (∀ k, is_Some (db_vehicles d !! k) → k < seq_vehicles d) ∧
  (∀ k, is_Some (db_maintenance d !! k) → k < seq_maintenance d) ∧
  (∀ k, is_Some (db_trips d !! k) → k < seq_trips d) ∧
  (∀ k, is_Some (db_bookings d !! k) → k < seq_bookings d).

(** No sequence has gone back. *)
Definition seq_le (a b : Db) : Prop :=
  seq_vehicles a ≤ seq_vehicles b ∧ seq_maintenance a ≤ seq_maintenance b ∧
  seq_trips a ≤ seq_trips b ∧ seq_bookings a ≤ seq_bookings b.

(** Under any fault plan the computation keeps ids below the sequences and
    never moves a sequence back. *)
Definition keeps_wf {A} (m : Store A) : Prop :=
  ∀ fs d, db_wf d → db_wf (m fs d).1.2 ∧ seq_le d (m fs d).1.2.

(** [vs] with the status of vehicle [vid] changed from [from] to [to], if
    the vehicle exists and has status [from]. *)
Definition flip_status (from to : VehicleStatus) (vid : Z)
    (vs : gmap Z Vehicle.t) : gmap Z Vehicle.t :=
  match vs !! vid with
  | Some v =>
      if decide (Vehicle.status v = Some from)
      then <[vid := Vehicle.set_status to v]> vs else vs
  | None => vs
  end.

(** The row [DatabaseStorage.createTrip] inserts for a payload. *)
Definition created_trip (t : Trip.t) : Trip.t :=
  Trip.with_defaults
    (Trip.set_times (convert_time (Trip.startTime t))
                    (convert_time <$> Trip.endTime t) t).

(** The patch [DatabaseStorage.updateMaintenance] applies: a string
    [completedAt] turned into a [Date]. *)
Definition processed_maintenance (p : Maintenance.partial) : Maintenance.partial :=
  match Maintenance.p_completedAt p with
  | Some (Some c) => Maintenance.set_completedAt (Some (Some (convert_time c))) p
  | _ => p
  end.

(** [vs] with vehicle [vid], if it exists and is [in_use], made [available]
    at mileage [odo || mileage]. *)
Definition release_vehicle (odo : option Z) (vid : Z)
    (vs : gmap Z Vehicle.t) : gmap Z Vehicle.t :=
  match vs !! vid with
  | Some v =>
      if decide (Vehicle.status v = Some in_use)
      then <[vid := Vehicle.set_status_mileage available
                      (number_or odo (Vehicle.mileage v)) v]> vs
      else vs
  | None => vs
  end.

(** The row [DatabaseStorage.createBooking] inserts for a payload at clock
    reading [now]. *)
Definition created_booking (now : Z) (b : Booking.t) : Booking.row :=
  Booking.mkRow (TimeDate (Date_at now))
    (Booking.with_defaults
       (Booking.set_times (convert_time (Booking.startTime b))
                          (convert_time (Booking.endTime b)) b)).

(** An update answered with [undefined] or with the store's error, never
    with a record. *)
Definition no_record {A} (r : Result (option A)) : Prop :=
  r = Ok None ∨ ∃ e, r = Err e.

(** [{ status: 'completed' }] *)
Definition complete_without_completedAt : Maintenance.partial :=
  Maintenance.mkPartial None None None None None None (Some m_completed) None None.


(** A [Map] filled through a counter: one entry per key, every key below
    the counter. *)
Definition map_wf {V} (m : list (Z * V)) (counter : Z) : Prop :=
  NoDup m.*1 ∧ ∀ k, k ∈ m.*1 → k < counter.

Definition mem_wf (s : Mem) : Prop :=
  map_wf (vehicles s) (vehicleIdCounter s) ∧
  map_wf (maintenances s) (maintenanceIdCounter s) ∧
  map_wf (trips s) (tripIdCounter s) ∧
  map_wf (bookings s) (bookingIdCounter s).

(** Every account id lies below the sequence of the table, and no two
    accounts share a username. *)
Definition users_wf (d : UserDb) : Prop :=
  (∀ k, is_Some (db_users d !! k) → k < seq_users d) ∧
  (∀ k1 k2 a1 a2,
     db_users d !! k1 = Some a1 → db_users d !! k2 = Some a2 →
     Account.username a1 = Account.username a2 → k1 = k2).

Definition sample_account (username : string) (r : Role) : Account.t :=
  Account.mk username "c0ffee.5a17" "Sample" r None None None.

(** An administrator under id 1 and a moderator under id 2. *)
Definition staff : UserDb :=
  mkUserDb {[ 1 := sample_account "root" admin;
              2 := sample_account "mod" moderator ]} 3.

Definition sample_insert : Account.insert :=
  Account.mkInsert "driver" "secret" "Driver" None None None None.


(** A store with vehicle 1 and booking 1, made by user 5, in status [s]. *)
Definition fleet_booked (s : BookingStatus) : Db :=
  mkDb {[ 1 := sample_vehicle available 1000 ]} ∅ ∅
       {[ 1 := sample_booking s ]} 2 1 1 2.

(** The same in a [MemStorage]. *)
Definition mem_fleet_booked (s : BookingStatus) : Mem :=
  mkMem [(1, sample_vehicle available 1000)] [] [] [(1, sample_booking s)]
        2 1 1 2.

(** A [MemStorage] with vehicle 1 [in_use], trip 1 in progress on it and
    trip 2 planned. *)
Definition mem_fleet_on_trips : Mem :=
  mkMem [(1, sample_vehicle in_use 1000)] []
        [(1, sample_trip in_progress 1000); (2, sample_trip planned 1200)] []
        2 1 3 1.

(** * Properties *)

(** ** Running store computations *)

(** [Map.get] after [Map.set]. *)
Lemma JsMap_get_set_eq {V} (m : list (Z * V)) k v :
  JsMap.get (JsMap.set m k v) k = Some v.
Proof.
  induction m as [|[k' v'] m IH]; cbn.
  - by rewrite decide_True.
  - destruct (decide (k' = k)) as [->|Hne]; cbn.
    + by rewrite decide_True.
    + by rewrite decide_False.
Qed.

Lemma JsMap_get_set_ne {V} (m : list (Z * V)) k k' v :
  k ≠ k' → JsMap.get (JsMap.set m k v) k' = JsMap.get m k'.
Proof.
  intros Hne. induction m as [|[k0 v0] m IH]; cbn.
  - by rewrite decide_False.
  - destruct (decide (k0 = k)) as [->|Hne0]; cbn.
    + by rewrite !decide_False.
    + destruct (decide (k0 = k')); done.
Qed.

(** Evaluate a fault-free run: compute, decide the tests that the
    hypotheses settle, and read the rows that the hypotheses give. *)
Ltac run :=
  repeat (cbn;
    first [ rewrite decide_True by done
          | rewrite decide_False by done
          | rewrite bool_decide_eq_true_2 by done
          | rewrite bool_decide_eq_false_2 by done
          | progress unfold select_by_id, update_by_id, delete_by_id
          | rewrite lookup_insert_eq
          | match goal with H : ?l = _ |- context [?l] => rewrite H end ]);
  cbn.

(** ** Store failures and transactions *)

Lemma same_rows_rollback d d' : same_rows (rollback d d') d.
Proof. by repeat split. Qed.

Lemma stable_ret {A} (a : A) : fault_stable (ret a).
Proof. intros fs d a' d' fs' H. cbn in *. by simplify_eq. Qed.

Lemma stable_throw {A} e : fault_stable (@throw A e).
Proof. intros fs d a' d' fs' H. cbn in *. by simplify_eq. Qed.

Lemma stable_statement {A} (f : Db → A * Db) : fault_stable (statement f).
Proof.
  intros fs d a d' fs' H. cbn in *.
  destruct fs as [|[] fs0]; destruct (f d); cbn in *; by simplify_eq.
Qed.

Lemma stable_bind {A B} (m : Store A) (k : A → Store B) :
  fault_stable m → (∀ a, fault_stable (k a)) → fault_stable (bind m k).
Proof.
  intros Hm Hk fs d b d' fs' H. cbn in *.
  destruct (m fs d) as [[[a|e] d1] fs1] eqn:E; [|by simplify_eq].
  rewrite (Hm _ _ _ _ _ E). exact (Hk a fs1 d1 b d' fs' H).
Qed.

Lemma stable_transaction {A} (body : Store A) :
  fault_stable body → fault_stable (transaction body).
Proof.
  intros Hb fs d a d' fs' H. cbn in *.
  destruct (body fs d) as [[[a1|e] d1] fs1] eqn:E; [|by simplify_eq].
  rewrite (Hb _ _ _ _ _ E).
  destruct fs1 as [|[] fs2]; cbn in *; by simplify_eq.
Qed.

Lemma transaction_all_or_nothing {A} (body : Store A) :
  fault_stable body → all_or_nothing (transaction body).
Proof.
  intros Hb fs d.
  destruct (transaction body fs d) as [[[a|e] d'] fs'] eqn:E.
  - by apply (stable_transaction body Hb fs d a d' fs').
  - cbn in E. destruct (body fs d) as [[[a1|e1] d1] fs1].
    + destruct fs1 as [|[] fs2]; inversion E; subst. apply same_rows_rollback.
    + inversion E; subst. apply same_rows_rollback.
Qed.

Ltac stable :=
  repeat first
    [ apply stable_ret
    | apply stable_throw
    | apply stable_statement
    | apply stable_transaction
    | apply stable_bind; [ | intros ? ]
    | match goal with
      | |- fault_stable (match ?x with _ => _ end) => destruct x
      end ].

Lemma createTrip_all_or_nothing tripData :
  all_or_nothing (DatabaseStorage.createTrip tripData).
Proof.
  unfold DatabaseStorage.createTrip. apply transaction_all_or_nothing. stable.
Qed.

Lemma updateTrip_all_or_nothing id tripData :
  all_or_nothing (DatabaseStorage.updateTrip id tripData).
Proof.
  unfold DatabaseStorage.updateTrip. apply transaction_all_or_nothing. stable.
Qed.

Lemma createMaintenance_all_or_nothing m :
  all_or_nothing (DatabaseStorage.createMaintenance m).
Proof.
  unfold DatabaseStorage.createMaintenance.
  apply transaction_all_or_nothing. stable.
Qed.

Lemma updateMaintenance_all_or_nothing id p :
  all_or_nothing (DatabaseStorage.updateMaintenance id p).
Proof.
  unfold DatabaseStorage.updateMaintenance.
  apply transaction_all_or_nothing. stable.
Qed.

(** The fault-free creation of an [in_progress] trip on an [available]
    vehicle. *)
Lemma createTrip_available_run d tripData v :
  Trip.status tripData = Some in_progress →
  db_vehicles d !! Trip.vehicleId tripData = Some v →
  Vehicle.status v = Some available →
  ∃ row d',
    DatabaseStorage.createTrip tripData [] d = (Ok (seq_trips d, row), d', []) ∧
    db_trips d' !! seq_trips d = Some row ∧
    Vehicle.status <$> db_vehicles d' !! Trip.vehicleId tripData
      = Some (Some in_use).
Proof.
  intros Hst Hv Hav. unfold DatabaseStorage.createTrip.
  run. eexists _, _. split; [reflexivity|]. cbn.
  by rewrite !lookup_insert_eq.
Qed.

(** C5.  Each operation that writes a dependent record together with the
    vehicle's status ([createTrip], [updateTrip], [createMaintenance],
    [updateMaintenance]) runs as one transaction: whatever statement or
    commit the store rejects, the operation fails with every table left
    as it was; and when it succeeds, all the writes of the fault-free run
    are in place.  In particular, starting an [in_progress] trip on an
    [available] vehicle never leaves the trip inserted with the vehicle
    not [in_use]. *)
Theorem lifecycle_operations_all_or_nothing :
  (∀ tripData, all_or_nothing (DatabaseStorage.createTrip tripData)) ∧
  (∀ id tripData, all_or_nothing (DatabaseStorage.updateTrip id tripData)) ∧
  (∀ m, all_or_nothing (DatabaseStorage.createMaintenance m)) ∧
  (∀ id p, all_or_nothing (DatabaseStorage.updateMaintenance id p)) ∧
  (∀ fs d tripData v,
     Trip.status tripData = Some in_progress →
     db_vehicles d !! Trip.vehicleId tripData = Some v →
     Vehicle.status v = Some available →
     match DatabaseStorage.createTrip tripData fs d with
     | (Err _, d', _) => same_rows d' d
     | (Ok trip, d', _) =>
         db_trips d' !! trip.1 = Some trip.2 ∧
         Vehicle.status <$> db_vehicles d' !! Trip.vehicleId tripData
           = Some (Some in_use)
     end).
Proof.
  split; [exact createTrip_all_or_nothing|].
  split; [exact updateTrip_all_or_nothing|].
  split; [exact createMaintenance_all_or_nothing|].
  split; [exact updateMaintenance_all_or_nothing|].
  intros fs d tripData v Hst Hv Hav.
  pose proof (createTrip_all_or_nothing tripData fs d) as Hatomic.
  destruct (DatabaseStorage.createTrip tripData fs d) as [[[trip|e] d'] fs'];
    [|done].
  destruct (createTrip_available_run d tripData v Hst Hv Hav)
    as (row & d1 & Hrun & Hrow & Hveh).
  rewrite Hrun in Hatomic. by simplify_eq.
Qed.

(** The store rejects the third statement, the update of the vehicle: the
    trip inserted by the first statement is gone again. *)
Lemma lifecycle_operations_all_or_nothing_witness :
  match DatabaseStorage.createTrip (sample_trip in_progress 1000)
          [false; false; true] (fleet available 1000) with
  | (Err _, d', _) => same_rows d' (fleet available 1000)
  | (Ok trip, d', _) =>
      db_trips d' !! trip.1 = Some trip.2 ∧
      Vehicle.status <$> db_vehicles d' !! 1 = Some (Some in_use)
  end.
Proof.
  apply (proj2 (proj2 (proj2 (proj2 lifecycle_operations_all_or_nothing)))
           [false; false; true] (fleet available 1000)
           (sample_trip in_progress 1000) (sample_vehicle available 1000));
    reflexivity.
Defined.

(** The same run, evaluated: the failure is reported and no table holds
    anything new, although the insert of the trip had gone through. *)
Lemma createTrip_rolled_back_when_vehicle_update_fails :
  ∃ d',
    DatabaseStorage.createTrip (sample_trip in_progress 1000)
      [false; false; true] (fleet available 1000) = (Err StoreError, d', []) ∧
    db_trips d' !! 1 = None ∧
    db_vehicles d' !! 1 = Some (sample_vehicle available 1000).
Proof. eexists. split; [reflexivity|]. by vm_compute. Qed.

(** ** Trip creation *)

(** C1 (amended).  Creating a trip with status [in_progress] for an
    existing vehicle always succeeds and inserts the trip under the next
    id.  If the vehicle was [available] it becomes [in_use]; if it was in
    [maintenance] the trip is inserted all the same and the vehicle is left
    as it was. *)
Theorem createTrip_in_progress_vehicle_status d tripData v :
  Trip.status tripData = Some in_progress →
  db_vehicles d !! Trip.vehicleId tripData = Some v →
  ∃ row d',
    DatabaseStorage.createTrip tripData [] d = (Ok (seq_trips d, row), d', []) ∧
    Trip.status row = Some in_progress ∧
    Trip.vehicleId row = Trip.vehicleId tripData ∧
    db_trips d' = <[seq_trips d := row]> (db_trips d) ∧
    (Vehicle.status v = Some available →
       db_vehicles d' =
         <[Trip.vehicleId tripData := Vehicle.set_status in_use v]> (db_vehicles d) ∧
       Vehicle.status <$> db_vehicles d' !! Trip.vehicleId tripData
         = Some (Some in_use)) ∧
    (Vehicle.status v = Some maintenance → db_vehicles d' = db_vehicles d).
Proof.
  intros Hst Hv. unfold DatabaseStorage.createTrip.
  destruct (decide (Vehicle.status v = Some available)) as [Hav|Hav].
  - run. eexists _, _. split; [reflexivity|]. cbn. rewrite Hst.
    repeat split; try done. by rewrite lookup_insert_eq.
  - run. eexists _, _. split; [reflexivity|]. cbn. rewrite Hst.
    repeat split; done.
Qed.

Lemma createTrip_in_progress_vehicle_status_witness :
  ∃ row d',
    DatabaseStorage.createTrip (sample_trip in_progress 1000) []
      (fleet available 1000) = (Ok (1, row), d', []) ∧
    Trip.status row = Some in_progress ∧
    Trip.vehicleId row = 1 ∧
    db_trips d' = <[1 := row]> ∅ ∧
    (Some available = Some available →
       db_vehicles d' =
         <[1 := Vehicle.set_status in_use (sample_vehicle available 1000)]>
           {[ 1 := sample_vehicle available 1000 ]} ∧
       Vehicle.status <$> db_vehicles d' !! 1 = Some (Some in_use)) ∧
    (Some available = Some maintenance →
       db_vehicles d' = {[ 1 := sample_vehicle available 1000 ]}).
Proof.
  exact (createTrip_in_progress_vehicle_status (fleet available 1000)
           (sample_trip in_progress 1000) (sample_vehicle available 1000)
           eq_refl eq_refl).
Defined.

(** C1 as stated fails: against a vehicle in [maintenance] the creation is
    not rejected; it returns the new trip, which is then in the table. *)
Lemma createTrip_maintenance_vehicle_not_rejected :
  ∃ row d',
    DatabaseStorage.createTrip (sample_trip in_progress 1000) []
      (fleet maintenance 1000) = (Ok (1, row), d', []) ∧
    db_trips (fleet maintenance 1000) !! 1 = None ∧
    db_trips d' !! 1 = Some row ∧
    Vehicle.status <$> db_vehicles d' !! 1 = Some (Some maintenance).
Proof. eexists _, _. split; [reflexivity|]. by vm_compute. Qed.

(** ** Trip completion *)

Lemma time_truthy_convert t : time_truthy (convert_time t) = time_truthy t.
Proof.
  destruct t as [s|dt]; [|done]. cbn.
  destruct (String.eqb s "") eqn:E; cbn; by rewrite ?E.
Qed.

Lemma has_endTime_processed p :
  Trip.has_endTime (DatabaseStorage.processed_update p)
  = Trip.has_endTime p.
Proof.
  unfold Trip.has_endTime, DatabaseStorage.processed_update.
  destruct (Trip.p_endTime p) as [[e|]|] eqn:E; cbn; rewrite ?E; try done.
  apply time_truthy_convert.
Qed.

Lemma processed_fields p :
  Trip.p_status (DatabaseStorage.processed_update p) = Trip.p_status p ∧
  Trip.p_endOdometer (DatabaseStorage.processed_update p) = Trip.p_endOdometer p ∧
  Trip.p_vehicleId (DatabaseStorage.processed_update p) = Trip.p_vehicleId p.
Proof.
  unfold DatabaseStorage.processed_update.
  by destruct (Trip.p_endTime p) as [[e|]|].
Qed.

(** Updating a trip that exists always succeeds and stores the merged
    record, whatever the patch holds. *)
Lemma updateTrip_existing d id t p :
  db_trips d !! id = Some t →
  ∃ d',
    DatabaseStorage.updateTrip id p [] d
      = (Ok (Some (id, Trip.merge t (DatabaseStorage.processed_update p))),
         d', []) ∧
    db_trips d' =
      <[id := Trip.merge t (DatabaseStorage.processed_update p)]> (db_trips d).
Proof.
  intros Ht. unfold DatabaseStorage.updateTrip.
  cbn. unfold update_by_id. rewrite Ht. cbn.
  destruct (bool_decide _ && _); cbn; [|by eexists].
  unfold select_by_id at 1. rewrite lookup_insert_eq. cbn.
  unfold select_by_id.
  match goal with
  | |- context [db_vehicles d !! ?k] =>
      destruct (db_vehicles d !! k) as [v|] eqn:Hv; cbn; [|by eexists]
  end.
  destruct (decide _); cbn; [|by eexists].
  unfold update_by_id. rewrite Hv. cbn. by eexists.
Qed.

(** What [updateTrip] does to the vehicle of a trip being completed. *)
Lemma updateTrip_completes d id t v p X :
  db_trips d !! id = Some t →
  db_vehicles d !! Trip.vehicleId t = Some v →
  Vehicle.status v = Some in_use →
  completes_trip p X →
  ∃ row d',
    DatabaseStorage.updateTrip id p [] d = (Ok (Some (id, row)), d', []) ∧
    db_trips d' = <[id := row]> (db_trips d) ∧
    Trip.status row = Some completed ∧
    Trip.endOdometer row = Some X ∧
    db_vehicles d' =
      <[Trip.vehicleId t :=
          Vehicle.set_status_mileage available
            (number_or (Some X) (Vehicle.mileage v)) v]> (db_vehicles d).
Proof.
  intros Ht Hv Huse (Hst & Hend & Hodo & Hvid).
  unfold DatabaseStorage.updateTrip.
  pose proof (has_endTime_processed p) as Hend'.
  pose proof (processed_fields p) as (Hst' & Hodo' & Hvid').
  run. eexists _, _. split; [reflexivity|]. cbn.
  by rewrite ?Hst', ?Hst, ?Hodo', ?Hodo.
Qed.

(** [MemStorage.updateTrip] treats the vehicle of a completed trip the same
    way. *)
Lemma MemStorage_updateTrip_completes m id t v p X :
  JsMap.get (trips m) id = Some t →
  JsMap.get (vehicles m) (Trip.vehicleId t) = Some v →
  Vehicle.status v = Some in_use →
  completes_trip p X →
  ∃ row m',
    MemStorage.updateTrip id p m = (Some (id, row), m') ∧
    Trip.status row = Some completed ∧
    JsMap.get (vehicles m') (Trip.vehicleId t)
      = Some (Vehicle.set_status_mileage available
                (number_or (Some X) (Vehicle.mileage v)) v).
Proof.
  intros Ht Hv Huse (Hst & Hend & Hodo & Hvid).
  unfold MemStorage.updateTrip. rewrite Ht. cbn.
  rewrite Hst, Hend, Hv, Huse, Hodo. run.
  eexists _, _. split; [reflexivity|]. cbn.
  by rewrite Hst, JsMap_get_set_eq.
Qed.

(** C3 (amended).  Completing an [in_progress] trip on an [in_use] vehicle
    of mileage [M], with [endOdometer = X ≥ startOdometer], sets the
    vehicle back to [available] and its mileage to [X] -- not to the
    larger of [M] and [X]; only for [X = 0] is the mileage kept at [M].
    The new mileage is [max M X] when [0 ≤ M ≤ X]. *)
Theorem updateTrip_completion_sets_mileage d id t v M p X :
  db_trips d !! id = Some t →
  Trip.status t = Some in_progress →
  db_vehicles d !! Trip.vehicleId t = Some v →
  Vehicle.status v = Some in_use →
  Vehicle.mileage v = Some M →
  completes_trip p X →
  Trip.startOdometer t ≤ X →
  ∃ row d' v',
    DatabaseStorage.updateTrip id p [] d = (Ok (Some (id, row)), d', []) ∧
    db_vehicles d' !! Trip.vehicleId t = Some v' ∧
    Vehicle.status v' = Some available ∧
    Vehicle.mileage v' = Some (if X =? 0 then M else X) ∧
    (0 ≤ M ≤ X → Vehicle.mileage v' = Some (Z.max M X)).
Proof.
  intros Ht _ Hv Huse HM Hp _.
  destruct (updateTrip_completes d id t v p X Ht Hv Huse Hp)
    as (row & d' & Hrun & _ & _ & _ & Hvs).
  eexists row, d', _. split; [exact Hrun|].
  rewrite Hvs, lookup_insert_eq. split; [reflexivity|]. cbn.
  split; [done|]. rewrite HM. unfold number_or. cbn.
  destruct (Z.eqb_spec X 0) as [->|HX]; cbn.
  - split; [done|]. intros ?. f_equal. lia.
  - split; [done|]. intros ?. f_equal. lia.
Qed.

Lemma updateTrip_completion_sets_mileage_witness :
  ∃ row d' v',
    DatabaseStorage.updateTrip 1 (complete_trip 1200) [] (fleet_on_trip 1000 1000)
      = (Ok (Some (1, row)), d', []) ∧
    db_vehicles d' !! 1 = Some v' ∧
    Vehicle.status v' = Some available ∧
    Vehicle.mileage v' = Some 1200 ∧
    (0 ≤ 1000 ≤ 1200 → Vehicle.mileage v' = Some (Z.max 1000 1200)).
Proof.
  apply (updateTrip_completion_sets_mileage (fleet_on_trip 1000 1000) 1
           (sample_trip in_progress 1000) (sample_vehicle in_use 1000) 1000
           (complete_trip 1200) 1200);
    [reflexivity | reflexivity | reflexivity | reflexivity | reflexivity
    | by vm_compute | by vm_compute].
Defined.

(** C3 as stated fails: vehicle at mileage 1000, trip started at odometer
    500 and completed at 600; the vehicle's mileage becomes 600, below
    [max 1000 600]. *)
Lemma updateTrip_completion_lowers_mileage :
  ∃ row d' v',
    DatabaseStorage.updateTrip 1 (complete_trip 600) [] (fleet_on_trip 1000 500)
      = (Ok (Some (1, row)), d', []) ∧
    Trip.startOdometer (sample_trip in_progress 500) ≤ 600 ∧
    db_vehicles d' !! 1 = Some v' ∧
    Vehicle.mileage v' = Some 600 ∧
    Vehicle.mileage v' ≠ Some (Z.max 1000 600).
Proof.
  eexists _, _, _. split; [reflexivity|].
  split; [by vm_compute|]. split; [reflexivity|]. by vm_compute.
Qed.

(** C4 (amended).  [updateTrip] does not compare [endOdometer] with the
    trip's [startOdometer]: an update of an existing trip whose
    [endOdometer] [X] is below [startOdometer] is accepted, the stored
    trip then carries [endOdometer = X], and when that update completes
    the trip of an [in_use] vehicle the vehicle becomes [available] with
    mileage [X] (its old mileage if [X = 0]). *)
Theorem updateTrip_accepts_endOdometer_below_start d id t p X :
  db_trips d !! id = Some t →
  Trip.p_endOdometer p = Some (Some X) →
  X < Trip.startOdometer t →
  ∃ row d',
    DatabaseStorage.updateTrip id p [] d = (Ok (Some (id, row)), d', []) ∧
    db_trips d' = <[id := row]> (db_trips d) ∧
    Trip.endOdometer row = Some X ∧
    (∀ v, db_vehicles d !! Trip.vehicleId t = Some v →
          Vehicle.status v = Some in_use →
          completes_trip p X →
          db_vehicles d' =
            <[Trip.vehicleId t :=
                Vehicle.set_status_mileage available
                  (number_or (Some X) (Vehicle.mileage v)) v]> (db_vehicles d)).
Proof.
  intros Ht Hodo _.
  destruct (updateTrip_existing d id t p Ht) as (d' & Hrun & Htrips).
  eexists _, d'. split; [exact Hrun|]. split; [exact Htrips|]. split.
  - cbn. destruct (processed_fields p) as (_ & -> & _). by rewrite Hodo.
  - intros v Hv Huse Hp.
    destruct (updateTrip_completes d id t v p X Ht Hv Huse Hp)
      as (row & d'' & Hrun' & _ & _ & _ & Hvs).
    rewrite Hrun in Hrun'. by simplify_eq.
Qed.

Lemma updateTrip_accepts_endOdometer_below_start_witness :
  ∃ row d',
    DatabaseStorage.updateTrip 1 (complete_trip 400) [] (fleet_on_trip 1000 1000)
      = (Ok (Some (1, row)), d', []) ∧
    db_trips d' = <[1 := row]> (db_trips (fleet_on_trip 1000 1000)) ∧
    Trip.endOdometer row = Some 400 ∧
    (∀ v, db_vehicles (fleet_on_trip 1000 1000) !! 1 = Some v →
          Vehicle.status v = Some in_use →
          completes_trip (complete_trip 400) 400 →
          db_vehicles d' =
            <[1 := Vehicle.set_status_mileage available
                     (number_or (Some 400) (Vehicle.mileage v)) v]>
              (db_vehicles (fleet_on_trip 1000 1000))).
Proof.
  apply (updateTrip_accepts_endOdometer_below_start (fleet_on_trip 1000 1000) 1
           (sample_trip in_progress 1000) (complete_trip 400) 400);
    [reflexivity | reflexivity | by vm_compute].
Defined.

(** C4 as stated fails: trip 1 started at odometer 1000 is completed with
    [endOdometer = 400]; the update is not rejected, the trip record changes
    and the vehicle goes from [in_use] at 1000 to [available] at 400.  The
    route [PUT /api/trips/1] answers 200. *)
Lemma updateTrip_endOdometer_below_start_not_rejected :
  ∃ row d',
    DatabaseStorage.updateTrip 1 (complete_trip 400) [] (fleet_on_trip 1000 1000)
      = (Ok (Some (1, row)), d', []) ∧
    400 < Trip.startOdometer (sample_trip in_progress 1000) ∧
    Trip.endOdometer <$> db_trips (fleet_on_trip 1000 1000) !! 1 = Some None ∧
    Trip.endOdometer <$> db_trips d' !! 1 = Some (Some 400) ∧
    Trip.status <$> db_trips d' !! 1 = Some (Some completed) ∧
    Vehicle.status <$> db_vehicles d' !! 1 = Some (Some available) ∧
    Vehicle.mileage <$> db_vehicles d' !! 1 = Some (Some 400) ∧
    Routes.put_trip (Some (mkUser 1 admin)) 1 (Valid (complete_trip 400)) []
      (fleet_on_trip 1000 1000) = (Ok (mkResponse 200 (TripJson (1, row))), d', []).
Proof.
  eexists _, _. split; [reflexivity|].
  split; [by vm_compute|]. by vm_compute.
Qed.

(** ** Maintenance: create, then complete *)

Lemma set_status_back s v :
  Vehicle.status v = Some available →
  Vehicle.set_status available (Vehicle.set_status s v) = v.
Proof. destruct v; cbn. by intros ->. Qed.

(** C6.  On an [available] vehicle, creating a maintenance record whose
    status is not [completed] puts the vehicle in [maintenance] (mileage
    untouched); updating that record to [completed] with a [completedAt]
    puts the vehicle back: the vehicles table is then exactly what it was
    before the record was created. *)
Theorem maintenance_create_then_complete_restores_vehicle d m v p :
  Maintenance.status m ≠ Some m_completed →
  db_vehicles d !! Maintenance.vehicleId m = Some v →
  Vehicle.status v = Some available →
  Maintenance.p_status p = Some m_completed →
  Maintenance.has_completedAt p = true →
  Maintenance.p_vehicleId p = None →
  ∃ row d1 row' d2,
    DatabaseStorage.createMaintenance m [] d
      = (Ok (seq_maintenance d, row), d1, []) ∧
    Vehicle.status <$> db_vehicles d1 !! Maintenance.vehicleId m
      = Some (Some maintenance) ∧
    Vehicle.mileage <$> db_vehicles d1 !! Maintenance.vehicleId m
      = Some (Vehicle.mileage v) ∧
    DatabaseStorage.updateMaintenance (seq_maintenance d) p [] d1
      = (Ok (Some (seq_maintenance d, row')), d2, []) ∧
    Maintenance.status row' = Some m_completed ∧
    Vehicle.status <$> db_vehicles d2 !! Maintenance.vehicleId m
      = Some (Some available) ∧
    Vehicle.mileage <$> db_vehicles d2 !! Maintenance.vehicleId m
      = Some (Vehicle.mileage v) ∧
    db_vehicles d2 = db_vehicles d.
Proof.
  intros Hm Hv Hav Hst _ Hvid.
  assert (Hprocessed : ∀ q,
    q = match Maintenance.p_completedAt p with
        | Some (Some c) =>
            Maintenance.set_completedAt (Some (Some (convert_time c))) p
        | _ => p
        end →
    Maintenance.p_status q = Some m_completed ∧ Maintenance.p_vehicleId q = None).
  { intros q ->. by destruct (Maintenance.p_completedAt p) as [[c|]|]. }
  unfold DatabaseStorage.createMaintenance, DatabaseStorage.updateMaintenance.
  set (q := match Maintenance.p_completedAt p with
            | Some (Some c) =>
                Maintenance.set_completedAt (Some (Some (convert_time c))) p
            | _ => p
            end).
  destruct (Hprocessed q eq_refl) as [Hqst Hqvid].
  eexists _, _, _, _. split.
  { run. reflexivity. }
  cbn. rewrite lookup_insert_eq. split; [done|]. split; [done|]. split.
  { run. reflexivity. }
  cbn. rewrite Hqst. split; [done|].
  rewrite insert_insert_eq, set_status_back by done.
  rewrite lookup_insert_eq. cbn. rewrite Hav.
  repeat split; try done. by apply insert_id.
Qed.

Lemma maintenance_create_then_complete_restores_vehicle_witness :
  ∃ row d1 row' d2,
    DatabaseStorage.createMaintenance (sample_maintenance m_pending 19723) []
      (fleet available 1000) = (Ok (1, row), d1, []) ∧
    Vehicle.status <$> db_vehicles d1 !! 1 = Some (Some maintenance) ∧
    Vehicle.mileage <$> db_vehicles d1 !! 1 = Some (Some 1000) ∧
    DatabaseStorage.updateMaintenance 1 complete_maintenance [] d1
      = (Ok (Some (1, row')), d2, []) ∧
    Maintenance.status row' = Some m_completed ∧
    Vehicle.status <$> db_vehicles d2 !! 1 = Some (Some available) ∧
    Vehicle.mileage <$> db_vehicles d2 !! 1 = Some (Some 1000) ∧
    db_vehicles d2 = db_vehicles (fleet available 1000).
Proof.
  apply (maintenance_create_then_complete_restores_vehicle
           (fleet available 1000) (sample_maintenance m_pending 19723)
           (sample_vehicle available 1000) complete_maintenance);
    [by vm_compute | reflexivity | reflexivity | reflexivity | reflexivity
    | reflexivity].
Defined.

(** ** Deleting a vehicle *)

Lemma select_where_nonempty {V} (cond : Z * V → bool) (tbl : gmap Z V) :
  (0 < length (select_where cond tbl))%nat ↔
  ∃ k r, tbl !! k = Some r ∧ cond (k, r) = true.
Proof.
  unfold select_where. split.
  - intros Hlen.
    destruct (filter _ (map_to_list tbl)) as [|[k r] l] eqn:E; [cbn in Hlen; lia|].
    assert (Hin : (k, r) ∈ filter (λ kr, cond kr = true) (map_to_list tbl))
      by (rewrite E; left).
    apply list_elem_of_filter in Hin as [Hc Hin].
    apply elem_of_map_to_list in Hin. eauto.
  - intros (k & r & Hk & Hc).
    assert (Hin : (k, r) ∈ filter (λ kr, cond kr = true) (map_to_list tbl)).
    { apply list_elem_of_filter. split; [done|]. by apply elem_of_map_to_list. }
    destruct (filter _ (map_to_list tbl)); [by apply elem_of_nil in Hin|cbn; lia].
Qed.

Lemma maintenance_dependents d id :
  (0 < length (select_where
                 (λ r, bool_decide (Maintenance.vehicleId r.2 = id))
                 (db_maintenance d)))%nat ↔
  ∃ k m, db_maintenance d !! k = Some m ∧ Maintenance.vehicleId m = id.
Proof.
  rewrite select_where_nonempty. cbn.
  split; intros (k & r & Hk & Hc); exists k, r; split; try done.
  - by apply bool_decide_eq_true in Hc.
  - by apply bool_decide_eq_true.
Qed.

Lemma trip_dependents d id :
  (0 < length (select_where
                 (λ r, bool_decide (Trip.vehicleId r.2 = id)) (db_trips d)))%nat ↔
  ∃ k t, db_trips d !! k = Some t ∧ Trip.vehicleId t = id.
Proof.
  rewrite select_where_nonempty. cbn.
  split; intros (k & r & Hk & Hc); exists k, r; split; try done.
  - by apply bool_decide_eq_true in Hc.
  - by apply bool_decide_eq_true.
Qed.

Lemma booking_dependents d id :
  (0 < length (select_where
                 (λ r, bool_decide (Booking.vehicleId (Booking.data r.2) = id))
                 (db_bookings d)))%nat ↔
  ∃ k b, db_bookings d !! k = Some b ∧ Booking.vehicleId (Booking.data b) = id.
Proof.
  rewrite select_where_nonempty. cbn.
  split; intros (k & r & Hk & Hc); exists k, r; split; try done.
  - by apply bool_decide_eq_true in Hc.
  - by apply bool_decide_eq_true.
Qed.

(** C7.  For an administrator's [DELETE /api/vehicles/:id] on an existing
    vehicle: if any maintenance, trip or booking record references the
    vehicle the request is refused (status 400, the message naming the
    blocking records) and the store is unchanged, the vehicle still there;
    with no such record the request succeeds (status 200) and exactly that
    vehicle is removed. *)
Theorem delete_vehicle_blocked_by_dependents d id u v :
  role u = admin →
  db_vehicles d !! id = Some v →
  (has_dependents d id →
     ∃ message,
       Routes.delete_vehicle (Some u) id [] d
         = (Ok (mkResponse 400 (Message message)), d, []) ∧
       Routes.includes "Cannot delete vehicle with" message = true) ∧
  (¬ has_dependents d id →
     ∃ d',
       Routes.delete_vehicle (Some u) id [] d
         = (Ok (mkResponse 200 (Message "Vehicle deleted successfully")), d', []) ∧
       db_vehicles d' = delete id (db_vehicles d) ∧
       db_vehicles d' !! id = None ∧
       db_maintenance d' = db_maintenance d ∧ db_trips d' = db_trips d ∧
       db_bookings d' = db_bookings d).
Proof.
  intros Hrole Hv.
  unfold Routes.delete_vehicle, Routes.adminOnly, Routes.checkRole.
  rewrite Hrole.
  rewrite (bool_decide_eq_true_2 (admin ∈ [admin])) by left.
  unfold DatabaseStorage.listMaintenanceForVehicle,
    DatabaseStorage.listTripsForVehicle, DatabaseStorage.listBookingsForVehicle,
    DatabaseStorage.deleteVehicle.
  pose proof (maintenance_dependents d id) as Hm.
  pose proof (trip_dependents d id) as Ht.
  pose proof (booking_dependents d id) as Hb.
  cbn. case_bool_decide as Em; cbn.
  { split; [intros _; by eexists|].
    intros Hn. exfalso. apply Hn. left. by apply Hm. }
  case_bool_decide as Et; cbn.
  { split; [intros _; by eexists|].
    intros Hn. exfalso. apply Hn. right. left. by apply Ht. }
  case_bool_decide as Eb; cbn.
  { split; [intros _; by eexists|].
    intros Hn. exfalso. apply Hn. right. right. by apply Hb. }
  split.
  { intros [H|[H|H]]; [apply Hm in H | apply Ht in H | apply Hb in H]; done. }
  intros _. unfold delete_by_id. rewrite Hv. cbn.
  eexists. split; [reflexivity|]. cbn.
  by rewrite lookup_delete_eq.
Qed.

(** A store where trip 1 references vehicle 1: the deletion is refused. *)
Lemma delete_vehicle_blocked_by_dependents_witness :
  ∃ message,
    Routes.delete_vehicle (Some (mkUser 1 admin)) 1 [] (fleet_on_trip 1000 1000)
      = (Ok (mkResponse 400 (Message message)), fleet_on_trip 1000 1000, []) ∧
    Routes.includes "Cannot delete vehicle with" message = true.
Proof.
  apply (delete_vehicle_blocked_by_dependents (fleet_on_trip 1000 1000) 1
           (mkUser 1 admin) (sample_vehicle in_use 1000));
    [reflexivity | reflexivity | ].
  right. left. exists 1, (sample_trip in_progress 1000).
  split; reflexivity.
Defined.

(** ** Upcoming maintenance *)

#[global] Instance date_le_total : Total date_le.
Proof. intros a b. unfold date_le. lia. Qed.
#[global] Instance date_le_trans : Transitive date_le.
Proof. intros a b c. unfold date_le. lia. Qed.

Lemma time_le_date_le a b : time_le a b ↔ date_le a b.
Proof. unfold time_le, date_le, getTime. lia. Qed.

#[global] Instance time_le_total : Total time_le.
Proof. intros a b. rewrite !time_le_date_le. apply date_le_total. Qed.
#[global] Instance time_le_trans : Transitive time_le.
Proof. intros a b c. rewrite !time_le_date_le. apply date_le_trans. Qed.

Lemma StronglySorted_time_date l :
  StronglySorted time_le l → StronglySorted date_le l.
Proof.
  induction 1 as [|a l Hl IH Ha]; constructor; [done|].
  eapply Forall_impl; [exact Ha|]. intros b. by apply time_le_date_le.
Qed.

Lemma upcoming_spec today k m :
  DatabaseStorage.upcoming today (k, m) = true ↔
  (∃ s, Maintenance.status m = Some s ∧ s ≠ m_completed) ∧
  today ≤ Maintenance.date m.
Proof.
  unfold DatabaseStorage.upcoming. cbn.
  rewrite andb_true_iff, bool_decide_eq_true.
  destruct (Maintenance.status m) as [s|].
  - rewrite bool_decide_eq_true. split.
    + intros [Hs Ht]. split; [by exists s|done].
    + intros [(s' & Hs' & Hne) Ht]. by simplify_eq.
  - split; [by intros [? _]|]. by intros [(s' & Hs' & _) _].
Qed.

(** C8 (amended).  [DatabaseStorage.listUpcomingMaintenance] returns, in
    ascending order of date and each once, exactly the maintenance records
    that are not [completed] and whose date is not before the store's
    current date; a record that is not completed but dated in the past is
    left out.  [MemStorage.listUpcomingMaintenance] returns every record
    that is not [completed], in ascending order of date. *)
Theorem listUpcomingMaintenance_contents :
  (∀ today d,
     ∃ rows,
       DatabaseStorage.listUpcomingMaintenance today [] d = (Ok rows, d, []) ∧
       StronglySorted date_le rows ∧
       NoDup rows ∧
       ∀ k m, (k, m) ∈ rows ↔
              db_maintenance d !! k = Some m ∧
              (∃ s, Maintenance.status m = Some s ∧ s ≠ m_completed) ∧
              today ≤ Maintenance.date m) ∧
  (∀ s,
     StronglySorted date_le (MemStorage.listUpcomingMaintenance s) ∧
     MemStorage.listUpcomingMaintenance s ≡ₚ
       filter (λ m, Maintenance.status m.2 ≠ Some m_completed) (maintenances s)).
Proof.
  split.
  - intros today d. eexists. split; [reflexivity|].
    split; [apply StronglySorted_merge_sort; apply _|].
    split.
    + rewrite merge_sort_Permutation. unfold select_where.
      apply NoDup_filter, NoDup_map_to_list.
    + intros k m. rewrite merge_sort_Permutation. unfold select_where.
      rewrite list_elem_of_filter, elem_of_map_to_list, upcoming_spec.
      tauto.
  - intros s. unfold MemStorage.listUpcomingMaintenance. split.
    + apply StronglySorted_time_date, StronglySorted_merge_sort; apply _.
    + apply merge_sort_Permutation.
Qed.

(** C8 as stated fails: a pending record dated day 50 is not returned when
    the store's current date is day 100. *)
Lemma listUpcomingMaintenance_omits_past_record :
  let d := mkDb ∅ {[ 1 := sample_maintenance m_pending 50 ]} ∅ ∅ 1 2 1 1 in
  db_maintenance d !! 1 = Some (sample_maintenance m_pending 50) ∧
  Maintenance.status (sample_maintenance m_pending 50) ≠ Some m_completed ∧
  DatabaseStorage.listUpcomingMaintenance 100 [] d = (Ok [], d, []).
Proof. by vm_compute. Qed.

(** ** Booking updates *)

(** C9.  Updating an existing booking with any value of the status enum
    succeeds and the stored booking then has that status, whatever its
    status was before -- in [DatabaseStorage] and in [MemStorage] alike. *)
Theorem updateBooking_accepts_any_status (s : BookingStatus) (p : Booking.partial) :
  Booking.p_status p = Some s →
  (∀ d id b,
     db_bookings d !! id = Some b →
     ∃ row d',
       DatabaseStorage.updateBooking id p [] d = (Ok (Some (id, row)), d', []) ∧
       db_bookings d' !! id = Some row ∧
       Booking.status (Booking.data row) = Some s) ∧
  (∀ m id b,
     JsMap.get (bookings m) id = Some b →
     ∃ row m',
       MemStorage.updateBooking id p m = (Some (id, row), m') ∧
       JsMap.get (bookings m') id = Some row ∧
       Booking.status (Booking.data row) = Some s).
Proof.
  intros Hs. split.
  - intros d id b Hb. unfold DatabaseStorage.updateBooking.
    run. eexists _, _. split; [reflexivity|]. cbn.
    rewrite lookup_insert_eq. by rewrite Hs.
  - intros m id b Hb. unfold MemStorage.updateBooking. rewrite Hb.
    eexists _, _. split; [reflexivity|]. cbn.
    rewrite JsMap_get_set_eq. by rewrite Hs.
Qed.

(** Booking 1, [completed], is set back to [pending] in both storages. *)
Lemma updateBooking_accepts_any_status_witness :
  Booking.p_status (set_booking_status b_pending) = Some b_pending ∧
  db_bookings (fleet_booked b_completed) !! 1
    = Some (sample_booking b_completed) ∧
  JsMap.get (bookings (mem_fleet_booked b_completed)) 1
    = Some (sample_booking b_completed) ∧
  (∃ row d',
     DatabaseStorage.updateBooking 1 (set_booking_status b_pending) []
       (fleet_booked b_completed)
       = (Ok (Some (1, row)), d', []) ∧
     db_bookings d' !! 1 = Some row ∧
     Booking.status (Booking.data row) = Some b_pending) ∧
  (∃ row m',
     MemStorage.updateBooking 1 (set_booking_status b_pending)
       (mem_fleet_booked b_completed)
       = (Some (1, row), m') ∧
     JsMap.get (bookings m') 1 = Some row ∧
     Booking.status (Booking.data row) = Some b_pending).
Proof.
  split; [reflexivity|]. split; [reflexivity|]. split; [reflexivity|]. split.
  - apply (proj1 (updateBooking_accepts_any_status b_pending
                    (set_booking_status b_pending) eq_refl)
             (fleet_booked b_completed) 1 (sample_booking b_completed)).
    reflexivity.
  - apply (proj2 (updateBooking_accepts_any_status b_pending
                    (set_booking_status b_pending) eq_refl)
             (mem_fleet_booked b_completed) 1 (sample_booking b_completed)).
    reflexivity.
Defined.

(** ** Booking creation *)

(** [DatabaseStorage.createBooking] checks the vehicle before it inserts:
    an unknown vehicle and a vehicle that is not [available] both make it
    throw, with no statement sent after the check, so the store is as it
    was. *)
Lemma DatabaseStorage_createBooking_rejects now d b :
  (db_vehicles d !! Booking.vehicleId b = None →
     DatabaseStorage.createBooking now b [] d
       = (Err (JsError "Vehicle not found"), d, [])) ∧
  (∀ v, db_vehicles d !! Booking.vehicleId b = Some v →
        Vehicle.status v ≠ Some available →
        DatabaseStorage.createBooking now b [] d
          = (Err (JsError ("Vehicle not available (status: "
                           ++ DatabaseStorage.status_text (Vehicle.status v)
                           ++ ")")), d, [])).
Proof.
  unfold DatabaseStorage.createBooking. split.
  - intros Hv. by run.
  - intros v Hv Hst. by run.
Qed.

(** The route turns the two rejections into 404 and 422. *)
Lemma post_booking_rejects now u d b :
  (db_vehicles d !! Booking.vehicleId b = None →
     ∃ message,
       Routes.post_booking now (Some u) (Valid b) [] d
         = (Ok (mkResponse 404 (Message message)), d, [])) ∧
  (∀ v, db_vehicles d !! Booking.vehicleId b = Some v →
        Vehicle.status v ≠ Some available →
        ∃ message,
          Routes.post_booking now (Some u) (Valid b) [] d
            = (Ok (mkResponse 422 (Message message)), d, [])).
Proof.
  destruct (DatabaseStorage_createBooking_rejects now d b) as [Hnone Hbusy].
  unfold Routes.post_booking, try_catch, bind. split.
  - intros Hv. rewrite (Hnone Hv). by eexists.
  - intros v Hv Hst. rewrite (Hbusy v Hv Hst).
    destruct (Vehicle.status v) as [[]|]; try done; by eexists.
Qed.

(** C2 fails on [MemStorage]: its [createBooking] never looks at the
    vehicle.  With no vehicle 1 in the store, and with vehicle 1 [in_use],
    the booking for vehicle 1 is persisted all the same. *)
Theorem MemStorage_createBooking_skips_vehicle_check :
  (let '(booking, m') :=
     MemStorage.createBooking 1704096000000 sample_booking_request empty_mem in
   MemStorage.getVehicle 1 empty_mem = None ∧
   booking.1 = 1 ∧
   MemStorage.getBooking 1 m' = Some booking.2 ∧
   Booking.vehicleId (Booking.data booking.2) = 1) ∧
  (let '(booking, m') :=
     MemStorage.createBooking 1704096000000 sample_booking_request
       (mem_fleet in_use 1000) in
   Vehicle.status <$> MemStorage.getVehicle 1 (mem_fleet in_use 1000)
     = Some (Some in_use) ∧
   booking.1 = 1 ∧
   MemStorage.getBooking 1 m' = Some booking.2 ∧
   Booking.vehicleId (Booking.data booking.2) = 1).
Proof. by vm_compute. Qed.

(** ** The two storages compared *)

(** With a trip that starts [in_progress], both storages leave the
    referenced vehicle in the same state. *)
Lemma createTrip_storages_agree_in_progress m d t :
  Trip.status t = Some in_progress →
  JsMap.get (vehicles m) (Trip.vehicleId t) = db_vehicles d !! Trip.vehicleId t →
  JsMap.get (vehicles (MemStorage.createTrip t m).2) (Trip.vehicleId t)
  = db_vehicles (DatabaseStorage.createTrip t [] d).1.2 !! Trip.vehicleId t.
Proof.
  intros Hst Hsame.
  unfold MemStorage.createTrip, DatabaseStorage.createTrip.
  destruct (db_vehicles d !! Trip.vehicleId t) as [v|] eqn:Hv;
    [destruct (decide (Vehicle.status v = Some available))|];
    run; by rewrite ?JsMap_get_set_eq.
Qed.

(** With a maintenance record that does not start [completed], both
    storages leave the referenced vehicle in the same state. *)
Lemma createMaintenance_storages_agree_not_completed m d r :
  Maintenance.status r ≠ Some m_completed →
  JsMap.get (vehicles m) (Maintenance.vehicleId r)
    = db_vehicles d !! Maintenance.vehicleId r →
  JsMap.get (vehicles (MemStorage.createMaintenance r m).2) (Maintenance.vehicleId r)
  = db_vehicles (DatabaseStorage.createMaintenance r [] d).1.2
      !! Maintenance.vehicleId r.
Proof.
  intros Hst Hsame.
  unfold MemStorage.createMaintenance, DatabaseStorage.createMaintenance.
  destruct (db_vehicles d !! Maintenance.vehicleId r) as [v|] eqn:Hv;
    [destruct (decide (Vehicle.status v = Some available))|];
    run; by rewrite ?JsMap_get_set_eq.
Qed.

(** C10 fails: [MemStorage] does not look at the status of the new record.
    Starting from the same [available] vehicle 1, a [planned] trip leaves
    the vehicle [in_use] in [MemStorage] and [available] in
    [DatabaseStorage]; a maintenance record created as [completed] leaves
    it in [maintenance] in [MemStorage] and [available] in
    [DatabaseStorage]. *)
Theorem create_storages_disagree_on_vehicle_status :
  JsMap.get (vehicles (mem_fleet available 1000)) 1
    = db_vehicles (fleet available 1000) !! 1 ∧
  Vehicle.status <$>
    JsMap.get (vehicles (MemStorage.createTrip (sample_trip planned 1000)
                           (mem_fleet available 1000)).2) 1
    = Some (Some in_use) ∧
  Vehicle.status <$>
    db_vehicles (DatabaseStorage.createTrip (sample_trip planned 1000) []
                   (fleet available 1000)).1.2 !! 1
    = Some (Some available) ∧
  Vehicle.status <$>
    JsMap.get (vehicles (MemStorage.createMaintenance
                           (sample_maintenance m_completed 19723)
                           (mem_fleet available 1000)).2) 1
    = Some (Some maintenance) ∧
  Vehicle.status <$>
    db_vehicles (DatabaseStorage.createMaintenance
                   (sample_maintenance m_completed 19723) []
                   (fleet available 1000)).1.2 !! 1
    = Some (Some available).
Proof. by vm_compute. Qed.


(** * Further properties of the storages and the routes *)

(** ** Ids and sequences *)

Lemma seq_le_refl d : seq_le d d.
Proof. unfold seq_le. lia. Qed.

Lemma seq_le_trans a b c : seq_le a b → seq_le b c → seq_le a c.
Proof. unfold seq_le. lia. Qed.

Lemma db_wf_rollback d d' : db_wf d → seq_le d d' → db_wf (rollback d d').
Proof.
  intros (Hv & Hm & Ht & Hb) (Lv & Lm & Lt & Lb). unfold db_wf. cbn.
  repeat split; intros k Hk.
  - specialize (Hv k Hk). lia.
  - specialize (Hm k Hk). lia.
  - specialize (Ht k Hk). lia.
  - specialize (Hb k Hk). lia.
Qed.

Lemma keeps_wf_ret {A} (a : A) : keeps_wf (ret a).
Proof. intros fs d Hd. cbn. split; [done|apply seq_le_refl]. Qed.

Lemma keeps_wf_throw {A} e : keeps_wf (@throw A e).
Proof. intros fs d Hd. cbn. split; [done|apply seq_le_refl]. Qed.

Lemma keeps_wf_bind {A B} (m : Store A) (k : A → Store B) :
  keeps_wf m → (∀ a, keeps_wf (k a)) → keeps_wf (bind m k).
Proof.
  intros Hm Hk fs d Hd. specialize (Hm fs d Hd). cbn.
  destruct (m fs d) as [[[a|e] d1] fs1]; cbn in *; [|done].
  destruct Hm as [Hwf Hle]. specialize (Hk a fs1 d1 Hwf).
  destruct Hk as [Hwf2 Hle2]. split; [done|]. by eapply seq_le_trans.
Qed.

Lemma keeps_wf_transaction {A} (body : Store A) :
  keeps_wf body → keeps_wf (transaction body).
Proof.
  intros Hb fs d Hd. specialize (Hb fs d Hd). cbn.
  assert (Hroll : ∀ d', seq_le d d' →
            db_wf (rollback d d') ∧ seq_le d (rollback d d')).
  { intros d' Hle. split; [by apply db_wf_rollback|]. apply Hle. }
  destruct (body fs d) as [[[a|e] d1] fs1]; cbn in *; destruct Hb as [Hwf Hle].
  - destruct fs1 as [|[] fs2]; cbn; auto.
  - auto.
Qed.

Lemma keeps_wf_statement {A} (f : Db → A * Db) :
  (∀ d, db_wf d → db_wf (f d).2 ∧ seq_le d (f d).2) →
  keeps_wf (statement f).
Proof.
  intros Hf fs d Hd. specialize (Hf d Hd). cbn.
  destruct fs as [|[] fs0]; destruct (f d); cbn in *;
    first [done | split; [done|apply seq_le_refl]].
Qed.

Lemma lookup_update_by_id {V} (g : V → V) (tbl : gmap Z V) k k' :
  is_Some ((update_by_id g tbl k).2 !! k') → is_Some (tbl !! k').
Proof.
  unfold update_by_id. destruct (tbl !! k) as [r|] eqn:E; cbn; [|done].
  destruct (decide (k = k')) as [->|Hne].
  - by rewrite E.
  - by rewrite lookup_insert_ne.
Qed.

Lemma lookup_delete_by_id {V} (tbl : gmap Z V) k k' :
  is_Some ((delete_by_id tbl k).2 !! k') → is_Some (tbl !! k').
Proof.
  unfold delete_by_id. destruct (tbl !! k) as [r|] eqn:E; cbn; [|done].
  destruct (decide (k = k')) as [->|Hne].
  - by rewrite lookup_delete_eq; intros [? ?].
  - by rewrite lookup_delete_ne.
Qed.

Lemma lookup_insert_below {V} (tbl : gmap Z V) k r k' :
  (∀ j, is_Some (tbl !! j) → j < k) →
  is_Some (<[k := r]> tbl !! k') → k' < k + 1.
Proof.
  intros H. destruct (decide (k = k')) as [->|Hne]; [lia|].
  rewrite lookup_insert_ne by done. intros Hk. specialize (H k' Hk). lia.
Qed.

(** The statements of [Sql] keep ids below the sequences. *)
Ltac wf_statement :=
  apply keeps_wf_statement;
  let d := fresh "d" in
  intros d (Hv & Hm & Ht & Hb); unfold db_wf, seq_le; cbn;
  repeat match goal with
         | |- context [update_by_id ?g ?t ?k] =>
             pose proof (@lookup_update_by_id _ g t k);
             destruct (update_by_id g t k)
         | |- context [delete_by_id ?t ?k] =>
             pose proof (@lookup_delete_by_id _ t k);
             destruct (delete_by_id t k)
         end; cbn in *;
  repeat split;
  try lia;
  try (intros ? ?; eapply lookup_insert_below; eauto; fail);
  eauto.

Lemma keeps_wf_select {A} (q : Db → A) : keeps_wf (statement (λ d, (q d, d))).
Proof.
  apply keeps_wf_statement. intros d Hd. cbn. split; [done|apply seq_le_refl].
Qed.

Lemma keeps_wf_insert_vehicle v : keeps_wf (Sql.insert_vehicle v).
Proof. unfold Sql.insert_vehicle. wf_statement. Qed.
Lemma keeps_wf_insert_maintenance m : keeps_wf (Sql.insert_maintenance m).
Proof. unfold Sql.insert_maintenance. wf_statement. Qed.
Lemma keeps_wf_insert_trip t : keeps_wf (Sql.insert_trip t).
Proof. unfold Sql.insert_trip. wf_statement. Qed.
Lemma keeps_wf_insert_booking now b : keeps_wf (Sql.insert_booking now b).
Proof. unfold Sql.insert_booking. wf_statement. Qed.
Lemma keeps_wf_update_vehicle g k : keeps_wf (Sql.update_vehicle g k).
Proof. unfold Sql.update_vehicle. wf_statement. Qed.
Lemma keeps_wf_update_maintenance g k : keeps_wf (Sql.update_maintenance g k).
Proof. unfold Sql.update_maintenance. wf_statement. Qed.
Lemma keeps_wf_update_trip g k : keeps_wf (Sql.update_trip g k).
Proof. unfold Sql.update_trip. wf_statement. Qed.
Lemma keeps_wf_update_booking g k : keeps_wf (Sql.update_booking g k).
Proof. unfold Sql.update_booking. wf_statement. Qed.
Lemma keeps_wf_delete_vehicle k : keeps_wf (Sql.delete_vehicle k).
Proof. unfold Sql.delete_vehicle. wf_statement. Qed.
Lemma keeps_wf_delete_maintenance k : keeps_wf (Sql.delete_maintenance k).
Proof. unfold Sql.delete_maintenance. wf_statement. Qed.
Lemma keeps_wf_delete_trip k : keeps_wf (Sql.delete_trip k).
Proof. unfold Sql.delete_trip. wf_statement. Qed.
Lemma keeps_wf_delete_booking k : keeps_wf (Sql.delete_booking k).
Proof. unfold Sql.delete_booking. wf_statement. Qed.

Ltac wf_op :=
  repeat first
    [ apply keeps_wf_ret
    | apply keeps_wf_throw
    | apply keeps_wf_transaction
    | apply keeps_wf_insert_vehicle
    | apply keeps_wf_insert_maintenance
    | apply keeps_wf_insert_trip
    | apply keeps_wf_insert_booking
    | apply keeps_wf_update_vehicle
    | apply keeps_wf_update_maintenance
    | apply keeps_wf_update_trip
    | apply keeps_wf_update_booking
    | apply keeps_wf_delete_vehicle
    | apply keeps_wf_delete_maintenance
    | apply keeps_wf_delete_trip
    | apply keeps_wf_delete_booking
    | apply keeps_wf_select
    | apply keeps_wf_bind; [ | intros ? ]
    | match goal with
      | |- keeps_wf (match ?x with _ => _ end) => destruct x
      end ].

(** X1.  Every writing operation of [DatabaseStorage], under any fault
    plan, keeps each id in use below the sequence of its table and never
    moves a sequence back -- also when a transaction is rolled back after
    an insert. *)
Theorem DatabaseStorage_keeps_ids_below_sequences :
  (∀ v, keeps_wf (DatabaseStorage.createVehicle v)) ∧
  (∀ id p, keeps_wf (DatabaseStorage.updateVehicle id p)) ∧
  (∀ id, keeps_wf (DatabaseStorage.deleteVehicle id)) ∧
  (∀ m, keeps_wf (DatabaseStorage.createMaintenance m)) ∧
  (∀ id p, keeps_wf (DatabaseStorage.updateMaintenance id p)) ∧
  (∀ id, keeps_wf (DatabaseStorage.deleteMaintenance id)) ∧
  (∀ t, keeps_wf (DatabaseStorage.createTrip t)) ∧
  (∀ id p, keeps_wf (DatabaseStorage.updateTrip id p)) ∧
  (∀ id, keeps_wf (DatabaseStorage.deleteTrip id)) ∧
  (∀ now b, keeps_wf (DatabaseStorage.createBooking now b)) ∧
  (∀ id p, keeps_wf (DatabaseStorage.updateBooking id p)) ∧
  (∀ id, keeps_wf (DatabaseStorage.deleteBooking id)).
Proof.
  split; [intros v; unfold DatabaseStorage.createVehicle; wf_op|].
  split; [intros id p; unfold DatabaseStorage.updateVehicle; wf_op|].
  split; [intros id; unfold DatabaseStorage.deleteVehicle; wf_op|].
  split; [intros m; unfold DatabaseStorage.createMaintenance; wf_op|].
  split; [intros id p; unfold DatabaseStorage.updateMaintenance; wf_op|].
  split; [intros id; unfold DatabaseStorage.deleteMaintenance; wf_op|].
  split; [intros t; unfold DatabaseStorage.createTrip; wf_op|].
  split; [intros id p; unfold DatabaseStorage.updateTrip; wf_op|].
  split; [intros id; unfold DatabaseStorage.deleteTrip; wf_op|].
  split; [intros now b; unfold DatabaseStorage.createBooking; wf_op|].
  split; [intros id p; unfold DatabaseStorage.updateBooking; wf_op|].
  intros id; unfold DatabaseStorage.deleteBooking; wf_op.
Qed.

(** ** Fault-free runs of the lifecycle operations, in closed form *)

Lemma createTrip_run d t :
  DatabaseStorage.createTrip t [] d =
    (Ok (seq_trips d, created_trip t),
     mkDb (if decide (Trip.status t = Some in_progress)
           then flip_status available in_use (Trip.vehicleId t) (db_vehicles d)
           else db_vehicles d)
          (db_maintenance d)
          (<[seq_trips d := created_trip t]> (db_trips d))
          (db_bookings d)
          (seq_vehicles d) (seq_maintenance d) (seq_trips d + 1) (seq_bookings d),
     []).
Proof.
  unfold DatabaseStorage.createTrip, flip_status, created_trip.
  destruct (decide (Trip.status t = Some in_progress)) as [Hst|Hst];
    [destruct (db_vehicles d !! Trip.vehicleId t) as [v|] eqn:Hv;
      [destruct (decide (Vehicle.status v = Some available))|]|];
    by run.
Qed.

Lemma createMaintenance_run d m :
  DatabaseStorage.createMaintenance m [] d =
    (Ok (seq_maintenance d, Maintenance.with_defaults m),
     mkDb (if decide (Maintenance.status m ≠ Some m_completed)
           then flip_status available maintenance (Maintenance.vehicleId m)
                  (db_vehicles d)
           else db_vehicles d)
          (<[seq_maintenance d := Maintenance.with_defaults m]> (db_maintenance d))
          (db_trips d) (db_bookings d)
          (seq_vehicles d) (seq_maintenance d + 1) (seq_trips d) (seq_bookings d),
     []).
Proof.
  unfold DatabaseStorage.createMaintenance, flip_status.
  destruct (decide (Maintenance.status m ≠ Some m_completed)) as [Hst|Hst];
    [destruct (db_vehicles d !! Maintenance.vehicleId m) as [v|] eqn:Hv;
      [destruct (decide (Vehicle.status v = Some available))|]|];
    by run.
Qed.

Lemma processed_maintenance_fields p :
  Maintenance.p_status (processed_maintenance p) = Maintenance.p_status p ∧
  Maintenance.p_vehicleId (processed_maintenance p) = Maintenance.p_vehicleId p.
Proof.
  unfold processed_maintenance.
  by destruct (Maintenance.p_completedAt p) as [[c|]|].
Qed.

Lemma updateMaintenance_run d id p :
  DatabaseStorage.updateMaintenance id p [] d =
    match db_maintenance d !! id with
    | None => (Ok None, d, [])
    | Some r =>
        let r' := Maintenance.merge r (processed_maintenance p) in
        (Ok (Some (id, r')),
         mkDb (if decide (Maintenance.p_status p = Some m_completed)
               then flip_status maintenance available (Maintenance.vehicleId r')
                      (db_vehicles d)
               else db_vehicles d)
              (<[id := r']> (db_maintenance d)) (db_trips d) (db_bookings d)
              (seq_vehicles d) (seq_maintenance d) (seq_trips d) (seq_bookings d),
         [])
    end.
Proof.
  unfold DatabaseStorage.updateMaintenance, flip_status.
  fold (processed_maintenance p).
  destruct (db_maintenance d !! id) as [r|] eqn:Hr.
  - destruct (decide (Maintenance.p_status p = Some m_completed)) as [Hst|Hst];
      [destruct (db_vehicles d !! Maintenance.vehicleId
                   (Maintenance.merge r (processed_maintenance p)))
         as [v|] eqn:Hv; cbn in Hv;
       [destruct (decide (Vehicle.status v = Some maintenance))|]|];
      by run.
  - destruct (decide (Maintenance.p_status p = Some m_completed));
      run; by destruct d.
Qed.

Lemma updateTrip_run d id p :
  DatabaseStorage.updateTrip id p [] d =
    match db_trips d !! id with
    | None => (Ok None, d, [])
    | Some t =>
        let t' := Trip.merge t (DatabaseStorage.processed_update p) in
        (Ok (Some (id, t')),
         mkDb (if bool_decide (Trip.p_status p = Some completed)
                  && Trip.has_endTime p
               then release_vehicle (mjoin (Trip.p_endOdometer p))
                      (Trip.vehicleId t') (db_vehicles d)
               else db_vehicles d)
              (db_maintenance d) (<[id := t']> (db_trips d)) (db_bookings d)
              (seq_vehicles d) (seq_maintenance d) (seq_trips d) (seq_bookings d),
         [])
    end.
Proof.
  unfold DatabaseStorage.updateTrip, release_vehicle.
  pose proof (has_endTime_processed p) as Hend.
  pose proof (processed_fields p) as (Hst & Hodo & _).
  destruct (db_trips d !! id) as [t|] eqn:Ht.
  - cbn. unfold update_by_id. rewrite Ht. cbn. rewrite Hend, Hst, Hodo.
    destruct (bool_decide (Trip.p_status p = Some completed)
              && Trip.has_endTime p); cbn; [|done].
    unfold select_by_id at 1. rewrite lookup_insert_eq. cbn.
    unfold select_by_id.
    destruct (db_vehicles d !! Trip.vehicleId
                (Trip.merge t (DatabaseStorage.processed_update p)))
      as [v|] eqn:Hv; cbn in Hv; rewrite Hv; cbn; [|done].
    destruct (decide (Vehicle.status v = Some in_use)); cbn; [|done].
    unfold update_by_id. by rewrite Hv.
  - cbn. unfold update_by_id. rewrite Ht. cbn. by destruct d.
Qed.

(** ** What the lifecycle operations can change *)

(** A property of the resulting rows holds under every fault plan once it
    holds for unchanged rows and for the fault-free run. *)
Lemma all_or_nothing_rows {A} (op : Store A) (P : Db → Prop) fs d :
  all_or_nothing op →
  (∀ d', same_rows d' d → P d') →
  (∀ a d', op [] d = (Ok a, d', []) → P d') →
  P (op fs d).1.2.
Proof.
  intros Hop Hsame Hrun. specialize (Hop fs d).
  destruct (op fs d) as [[[a|e] d'] fs']; cbn; eauto.
Qed.

(** X2.  Under any fault plan [createTrip] leaves the maintenance and
    bookings tables alone, and the vehicles table too, with one exception:
    when the trip is [in_progress] and its vehicle is [available], that
    vehicle -- and nothing else about it than its status -- becomes
    [in_use]. *)
Theorem createTrip_touches_only_the_vehicle_status fs d t :
  db_maintenance (DatabaseStorage.createTrip t fs d).1.2 = db_maintenance d ∧
  db_bookings (DatabaseStorage.createTrip t fs d).1.2 = db_bookings d ∧
  (db_vehicles (DatabaseStorage.createTrip t fs d).1.2 = db_vehicles d ∨
   (Trip.status t = Some in_progress ∧
    ∃ v, db_vehicles d !! Trip.vehicleId t = Some v ∧
         Vehicle.status v = Some available ∧
         db_vehicles (DatabaseStorage.createTrip t fs d).1.2
           = <[Trip.vehicleId t := Vehicle.set_status in_use v]> (db_vehicles d))).
Proof.
  apply (all_or_nothing_rows (DatabaseStorage.createTrip t)
           (λ d', db_maintenance d' = db_maintenance d ∧
                  db_bookings d' = db_bookings d ∧
                  (db_vehicles d' = db_vehicles d ∨
                   (Trip.status t = Some in_progress ∧
                    ∃ v, db_vehicles d !! Trip.vehicleId t = Some v ∧
                         Vehicle.status v = Some available ∧
                         db_vehicles d'
                           = <[Trip.vehicleId t := Vehicle.set_status in_use v]>
                               (db_vehicles d))))).
  - apply createTrip_all_or_nothing.
  - intros d' (Hv & Hm & _ & Hb). auto.
  - intros a d' Hrun. rewrite createTrip_run in Hrun. simplify_eq. cbn.
    split; [done|]. split; [done|].
    destruct (decide (Trip.status t = Some in_progress)) as [Hst|Hst]; [|by left].
    unfold flip_status.
    destruct (db_vehicles d !! Trip.vehicleId t) as [v|] eqn:Hv; [|by left].
    destruct (decide (Vehicle.status v = Some available)); [|by left].
    right. split; [done|]. by exists v.
Qed.

(** X3.  Under any fault plan [createMaintenance] leaves the trips and
    bookings tables alone, and the vehicles table too, with one exception:
    when the record is not created [completed] and its vehicle is
    [available], that vehicle's status becomes [maintenance]. *)
Theorem createMaintenance_touches_only_the_vehicle_status fs d m :
  db_trips (DatabaseStorage.createMaintenance m fs d).1.2 = db_trips d ∧
  db_bookings (DatabaseStorage.createMaintenance m fs d).1.2 = db_bookings d ∧
  (db_vehicles (DatabaseStorage.createMaintenance m fs d).1.2 = db_vehicles d ∨
   (Maintenance.status m ≠ Some m_completed ∧
    ∃ v, db_vehicles d !! Maintenance.vehicleId m = Some v ∧
         Vehicle.status v = Some available ∧
         db_vehicles (DatabaseStorage.createMaintenance m fs d).1.2
           = <[Maintenance.vehicleId m := Vehicle.set_status maintenance v]>
               (db_vehicles d))).
Proof.
  apply (all_or_nothing_rows (DatabaseStorage.createMaintenance m)
           (λ d', db_trips d' = db_trips d ∧
                  db_bookings d' = db_bookings d ∧
                  (db_vehicles d' = db_vehicles d ∨
                   (Maintenance.status m ≠ Some m_completed ∧
                    ∃ v, db_vehicles d !! Maintenance.vehicleId m = Some v ∧
                         Vehicle.status v = Some available ∧
                         db_vehicles d'
                           = <[Maintenance.vehicleId m :=
                                 Vehicle.set_status maintenance v]>
                               (db_vehicles d))))).
  - apply createMaintenance_all_or_nothing.
  - intros d' (Hv & Hm & Ht & Hb). auto.
  - intros a d' Hrun. rewrite createMaintenance_run in Hrun. simplify_eq. cbn.
    split; [done|]. split; [done|].
    destruct (decide (Maintenance.status m ≠ Some m_completed)) as [Hst|Hst];
      [|by left].
    unfold flip_status.
    destruct (db_vehicles d !! Maintenance.vehicleId m) as [v|] eqn:Hv; [|by left].
    destruct (decide (Vehicle.status v = Some available)); [|by left].
    right. split; [done|]. by exists v.
Qed.

(** X4.  Under any fault plan [updateTrip] leaves the maintenance and
    bookings tables alone and changes no trip but the one updated.  It
    changes the vehicles table only when the patch says [completed] with a
    truthy [endTime], the trip exists and the vehicle of the updated trip
    is [in_use]: then that vehicle becomes [available] with mileage
    [endOdometer || mileage]. *)
Theorem updateTrip_touches_only_an_in_use_vehicle fs d id p :
  db_maintenance (DatabaseStorage.updateTrip id p fs d).1.2 = db_maintenance d ∧
  db_bookings (DatabaseStorage.updateTrip id p fs d).1.2 = db_bookings d ∧
  (∀ k, k ≠ id →
        db_trips (DatabaseStorage.updateTrip id p fs d).1.2 !! k = db_trips d !! k) ∧
  (db_vehicles (DatabaseStorage.updateTrip id p fs d).1.2 = db_vehicles d ∨
   (Trip.p_status p = Some completed ∧ Trip.has_endTime p = true ∧
    ∃ t v,
      db_trips d !! id = Some t ∧
      db_vehicles d
        !! Trip.vehicleId (Trip.merge t (DatabaseStorage.processed_update p))
        = Some v ∧
      Vehicle.status v = Some in_use ∧
      db_vehicles (DatabaseStorage.updateTrip id p fs d).1.2
        = <[Trip.vehicleId (Trip.merge t (DatabaseStorage.processed_update p)) :=
              Vehicle.set_status_mileage available
                (number_or (mjoin (Trip.p_endOdometer p)) (Vehicle.mileage v)) v]>
            (db_vehicles d))).
Proof.
  apply (all_or_nothing_rows (DatabaseStorage.updateTrip id p)
    (λ d', db_maintenance d' = db_maintenance d ∧
           db_bookings d' = db_bookings d ∧
           (∀ k, k ≠ id → db_trips d' !! k = db_trips d !! k) ∧
           (db_vehicles d' = db_vehicles d ∨
            (Trip.p_status p = Some completed ∧ Trip.has_endTime p = true ∧
             ∃ t v,
               db_trips d !! id = Some t ∧
               db_vehicles d
                 !! Trip.vehicleId (Trip.merge t (DatabaseStorage.processed_update p))
                 = Some v ∧
               Vehicle.status v = Some in_use ∧
               db_vehicles d'
                 = <[Trip.vehicleId
                       (Trip.merge t (DatabaseStorage.processed_update p)) :=
                       Vehicle.set_status_mileage available
                         (number_or (mjoin (Trip.p_endOdometer p))
                                    (Vehicle.mileage v)) v]>
                     (db_vehicles d))))).
  - apply updateTrip_all_or_nothing.
  - intros d' (Hv & Hm & Ht & Hb). rewrite Hv, Hm, Ht, Hb. auto.
  - intros a d' Hrun. rewrite updateTrip_run in Hrun.
    destruct (db_trips d !! id) as [t|] eqn:Ht; cbv zeta in Hrun; simplify_eq;
      cbn [db_vehicles db_maintenance db_trips db_bookings]; [|auto].
    split; [done|]. split; [done|].
    split; [intros k Hk; by rewrite lookup_insert_ne|].
    destruct (bool_decide (Trip.p_status p = Some completed)
              && Trip.has_endTime p) eqn:Hc; [|by left].
    apply andb_true_iff in Hc as [Hst Hend].
    apply bool_decide_eq_true in Hst.
    unfold release_vehicle.
    destruct (db_vehicles d !! _) as [v|] eqn:Hv; [|by left].
    destruct (decide (Vehicle.status v = Some in_use)); [|by left].
    right. split; [done|]. split; [done|]. by exists t, v.
Qed.

(** X5.  Under any fault plan [updateMaintenance] leaves the trips and
    bookings tables alone and changes no maintenance record but the one
    updated.  It changes the vehicles table only when the patch says
    [completed], the record exists and the vehicle of the updated record
    is in [maintenance]: then that vehicle's status becomes [available],
    its mileage untouched. *)
Theorem updateMaintenance_touches_only_a_vehicle_in_maintenance fs d id p :
  db_trips (DatabaseStorage.updateMaintenance id p fs d).1.2 = db_trips d ∧
  db_bookings (DatabaseStorage.updateMaintenance id p fs d).1.2 = db_bookings d ∧
  (∀ k, k ≠ id →
        db_maintenance (DatabaseStorage.updateMaintenance id p fs d).1.2 !! k
        = db_maintenance d !! k) ∧
  (db_vehicles (DatabaseStorage.updateMaintenance id p fs d).1.2 = db_vehicles d ∨
   (Maintenance.p_status p = Some m_completed ∧
    ∃ r v,
      db_maintenance d !! id = Some r ∧
      db_vehicles d
        !! Maintenance.vehicleId (Maintenance.merge r (processed_maintenance p))
        = Some v ∧
      Vehicle.status v = Some maintenance ∧
      db_vehicles (DatabaseStorage.updateMaintenance id p fs d).1.2
        = <[Maintenance.vehicleId (Maintenance.merge r (processed_maintenance p)) :=
              Vehicle.set_status available v]> (db_vehicles d))).
Proof.
  apply (all_or_nothing_rows (DatabaseStorage.updateMaintenance id p)
    (λ d', db_trips d' = db_trips d ∧
           db_bookings d' = db_bookings d ∧
           (∀ k, k ≠ id → db_maintenance d' !! k = db_maintenance d !! k) ∧
           (db_vehicles d' = db_vehicles d ∨
            (Maintenance.p_status p = Some m_completed ∧
             ∃ r v,
               db_maintenance d !! id = Some r ∧
               db_vehicles d
                 !! Maintenance.vehicleId
                      (Maintenance.merge r (processed_maintenance p))
                 = Some v ∧
               Vehicle.status v = Some maintenance ∧
               db_vehicles d'
                 = <[Maintenance.vehicleId
                       (Maintenance.merge r (processed_maintenance p)) :=
                       Vehicle.set_status available v]> (db_vehicles d))))).
  - apply updateMaintenance_all_or_nothing.
  - intros d' (Hv & Hm & Ht & Hb). rewrite Hv, Hm, Ht, Hb. auto.
  - intros a d' Hrun. rewrite updateMaintenance_run in Hrun.
    destruct (db_maintenance d !! id) as [r|] eqn:Hr; cbv zeta in Hrun;
      simplify_eq; cbn [db_vehicles db_maintenance db_trips db_bookings]; [|auto].
    split; [done|]. split; [done|].
    split; [intros k Hk; by rewrite lookup_insert_ne|].
    destruct (decide (Maintenance.p_status p = Some m_completed)) as [Hst|Hst];
      [|by left].
    unfold flip_status.
    destruct (db_vehicles d !! _) as [v|] eqn:Hv; [|by left].
    destruct (decide (Vehicle.status v = Some maintenance)); [|by left].
    right. split; [done|]. by exists r, v.
Qed.


(** ** Updating what is not there *)

Lemma statement_outcome {A} (f : Db → A * Db) fs d :
  statement f fs d = (Err StoreError, d, tail fs) ∨
  statement f fs d = (Ok (f d).1, (f d).2, tail fs).
Proof.
  unfold statement. destruct fs as [|[] fs0]; destruct (f d); cbn; auto.
Qed.

Lemma update_missing_transaction {A} (op : Store (option A)) fs d :
  all_or_nothing op → op [] d = (Ok None, d, []) →
  same_rows (op fs d).1.2 d ∧ no_record (op fs d).1.1.
Proof.
  intros Hop Hrun. specialize (Hop fs d).
  destruct (op fs d) as [[[a|e] d'] fs']; cbn.
  - rewrite Hrun in Hop. simplify_eq. split; [done|by left].
  - split; [done|]. right. by exists e.
Qed.

(** X6.  Updating a vehicle, maintenance record, trip or booking whose id
    is not in the store changes no row and answers [undefined] (or, in
    [DatabaseStorage], the store's error) -- under any fault plan, and also
    when the patch is a completion: no vehicle is touched. *)
Theorem update_of_a_missing_record_changes_nothing :
  (∀ fs d id p, db_vehicles d !! id = None →
     same_rows (DatabaseStorage.updateVehicle id p fs d).1.2 d ∧
     no_record (DatabaseStorage.updateVehicle id p fs d).1.1) ∧
  (∀ fs d id p, db_maintenance d !! id = None →
     same_rows (DatabaseStorage.updateMaintenance id p fs d).1.2 d ∧
     no_record (DatabaseStorage.updateMaintenance id p fs d).1.1) ∧
  (∀ fs d id p, db_trips d !! id = None →
     same_rows (DatabaseStorage.updateTrip id p fs d).1.2 d ∧
     no_record (DatabaseStorage.updateTrip id p fs d).1.1) ∧
  (∀ fs d id p, db_bookings d !! id = None →
     same_rows (DatabaseStorage.updateBooking id p fs d).1.2 d ∧
     no_record (DatabaseStorage.updateBooking id p fs d).1.1) ∧
  (∀ m id p, JsMap.get (vehicles m) id = None →
     MemStorage.updateVehicle id p m = (None, m)) ∧
  (∀ m id p, JsMap.get (maintenances m) id = None →
     MemStorage.updateMaintenance id p m = (None, m)) ∧
  (∀ m id p, JsMap.get (trips m) id = None →
     MemStorage.updateTrip id p m = (None, m)) ∧
  (∀ m id p, JsMap.get (bookings m) id = None →
     MemStorage.updateBooking id p m = (None, m)).
Proof.
  split; [|split; [|split; [|split; [|split; [|split; [|split]]]]]].
  - intros fs d id p Hid. unfold DatabaseStorage.updateVehicle. cbn.
    unfold update_by_id. rewrite Hid.
    destruct fs as [|[] fs0]; cbn; (split; [done|]);
      first [by left | right; by eexists].
  - intros fs d id p Hid. apply update_missing_transaction.
    + apply updateMaintenance_all_or_nothing.
    + by rewrite updateMaintenance_run, Hid.
  - intros fs d id p Hid. apply update_missing_transaction.
    + apply updateTrip_all_or_nothing.
    + by rewrite updateTrip_run, Hid.
  - intros fs d id p Hid. unfold DatabaseStorage.updateBooking. cbn.
    unfold update_by_id. rewrite Hid.
    destruct fs as [|[] fs0]; cbn; (split; [done|]);
      first [by left | right; by eexists].
  - intros m id p Hid. unfold MemStorage.updateVehicle. by rewrite Hid.
  - intros m id p Hid. unfold MemStorage.updateMaintenance. by rewrite Hid.
  - intros m id p Hid. unfold MemStorage.updateTrip. by rewrite Hid.
  - intros m id p Hid. unfold MemStorage.updateBooking. by rewrite Hid.
Qed.

(** Trip 9 does not exist: completing it touches nothing, not even the
    [in_use] vehicle, whichever statement the store rejects. *)
Lemma update_of_a_missing_record_changes_nothing_witness :
  same_rows
    (DatabaseStorage.updateTrip 9 (complete_trip 1200) [false; true]
       (fleet_on_trip 1000 1000)).1.2 (fleet_on_trip 1000 1000) ∧
  no_record
    (DatabaseStorage.updateTrip 9 (complete_trip 1200) [false; true]
       (fleet_on_trip 1000 1000)).1.1.
Proof.
  apply (proj1 (proj2 (proj2 update_of_a_missing_record_changes_nothing))
           [false; true] (fleet_on_trip 1000 1000) 9 (complete_trip 1200)).
  reflexivity.
Defined.

(** ** Creating never overwrites *)

(** The two outcomes of [createBooking] under a fault plan: an error with
    the store exactly as it was, or -- the vehicle being [available] -- the
    new row under the next id. *)
Lemma createBooking_outcome now b fs d :
  (∃ e, (DatabaseStorage.createBooking now b fs d).1 = (Err e, d)) ∨
  (∃ v, db_vehicles d !! Booking.vehicleId b = Some v ∧
        Vehicle.status v = Some available ∧
        (DatabaseStorage.createBooking now b fs d).1 =
          (Ok (seq_bookings d, created_booking now b),
           mkDb (db_vehicles d) (db_maintenance d) (db_trips d)
                (<[seq_bookings d := created_booking now b]> (db_bookings d))
                (seq_vehicles d) (seq_maintenance d) (seq_trips d)
                (seq_bookings d + 1))).
Proof.
  unfold DatabaseStorage.createBooking, created_booking. cbn.
  destruct fs as [|[] fs0]; cbn; try (left; by eexists);
    unfold select_by_id;
    (destruct (db_vehicles d !! Booking.vehicleId b) as [v|] eqn:Hv; cbn;
       [|left; by eexists]);
    (destruct (decide (Vehicle.status v ≠ Some available)) as [Hst|Hst]; cbn;
       [left; by eexists|]);
    apply dec_stable in Hst.
  - right. by exists v.
  - destruct fs0 as [|[] fs1]; cbn; first [left; by eexists | right; by exists v].
Qed.

Lemma insert_keeps_rows {V} (tbl : gmap Z V) (seq : Z) (r : V) :
  (∀ k, is_Some (tbl !! k) → k < seq) →
  tbl !! seq = None ∧
  ∀ k x, tbl !! k = Some x → <[seq := r]> tbl !! k = Some x.
Proof.
  intros Hwf. assert (Hnone : tbl !! seq = None).
  { destruct (tbl !! seq) eqn:E; [|done].
    assert (seq < seq) by (apply Hwf; by rewrite E). lia. }
  split; [done|]. intros k x Hk.
  rewrite lookup_insert_ne; [done|]. intros ->. congruence.
Qed.

(** X7.  In a store whose ids lie below its sequences, creating a trip, a
    maintenance record or a booking never overwrites or drops a record of
    its table, under any fault plan; and when the creation succeeds the id
    it returns was unused before and now holds the returned record. *)
Theorem create_never_overwrites fs d :
  db_wf d →
  (∀ t,
     (∀ k x, db_trips d !! k = Some x →
             db_trips (DatabaseStorage.createTrip t fs d).1.2 !! k = Some x) ∧
     (∀ id row, (DatabaseStorage.createTrip t fs d).1.1 = Ok (id, row) →
                db_trips d !! id = None ∧
                db_trips (DatabaseStorage.createTrip t fs d).1.2 !! id
                  = Some row)) ∧
  (∀ m,
     (∀ k x, db_maintenance d !! k = Some x →
             db_maintenance (DatabaseStorage.createMaintenance m fs d).1.2 !! k
               = Some x) ∧
     (∀ id row, (DatabaseStorage.createMaintenance m fs d).1.1 = Ok (id, row) →
                db_maintenance d !! id = None ∧
                db_maintenance (DatabaseStorage.createMaintenance m fs d).1.2 !! id
                  = Some row)) ∧
  (∀ now b,
     (∀ k x, db_bookings d !! k = Some x →
             db_bookings (DatabaseStorage.createBooking now b fs d).1.2 !! k
               = Some x) ∧
     (∀ id row, (DatabaseStorage.createBooking now b fs d).1.1 = Ok (id, row) →
                db_bookings d !! id = None ∧
                db_bookings (DatabaseStorage.createBooking now b fs d).1.2 !! id
                  = Some row)).
Proof.
  intros (Hv & Hm & Ht & Hb). split; [|split].
  - intros t. pose proof (createTrip_all_or_nothing t fs d) as Hop.
    destruct (insert_keeps_rows (db_trips d) (seq_trips d) (created_trip t) Ht)
      as [Hnone Hkeep].
    destruct (DatabaseStorage.createTrip t fs d) as [[[a|e] d'] fs']; cbn.
    + rewrite createTrip_run in Hop. simplify_eq. cbn. split; [done|].
      intros id row ?. simplify_eq. by rewrite lookup_insert_eq.
    + destruct Hop as (_ & _ & -> & _). by split.
  - intros m. pose proof (createMaintenance_all_or_nothing m fs d) as Hop.
    destruct (insert_keeps_rows (db_maintenance d) (seq_maintenance d)
                (Maintenance.with_defaults m) Hm) as [Hnone Hkeep].
    destruct (DatabaseStorage.createMaintenance m fs d) as [[[a|e] d'] fs']; cbn.
    + rewrite createMaintenance_run in Hop. simplify_eq. cbn. split; [done|].
      intros id row ?. simplify_eq. by rewrite lookup_insert_eq.
    + destruct Hop as (_ & -> & _ & _). by split.
  - intros now b.
    destruct (insert_keeps_rows (db_bookings d) (seq_bookings d)
                (created_booking now b) Hb) as [Hnone Hkeep].
    destruct (createBooking_outcome now b fs d)
      as [(e & He)|(v & _ & _ & Hok)].
    + destruct (DatabaseStorage.createBooking now b fs d) as [[r d'] fs'].
      cbn in *. simplify_eq. by split.
    + destruct (DatabaseStorage.createBooking now b fs d) as [[r d'] fs'].
      cbn in *. simplify_eq. cbn. split; [done|].
      intros id row ?. simplify_eq. by rewrite lookup_insert_eq.
Qed.

Lemma db_wf_fleet_on_trip : db_wf (fleet_on_trip 1000 1000).
Proof.
  unfold db_wf, fleet_on_trip. cbn.
  repeat split; intros k [x Hk]; try (by rewrite lookup_empty in Hk);
    (destruct (decide (k = 1)) as [->|Hne];
     [lia | by rewrite lookup_singleton_ne in Hk]).
Qed.

(** A second trip is created while trip 1 exists: it gets id 2 and trip 1
    is still there. *)
Lemma create_never_overwrites_witness :
  db_trips (DatabaseStorage.createTrip (sample_trip in_progress 1000) []
              (fleet_on_trip 1000 1000)).1.2 !! 1
    = Some (sample_trip in_progress 1000) ∧
  db_trips (fleet_on_trip 1000 1000) !! 2 = None ∧
  db_trips (DatabaseStorage.createTrip (sample_trip in_progress 1000) []
              (fleet_on_trip 1000 1000)).1.2 !! 2
    = Some (created_trip (sample_trip in_progress 1000)).
Proof.
  destruct (proj1 (create_never_overwrites [] (fleet_on_trip 1000 1000)
                     db_wf_fleet_on_trip) (sample_trip in_progress 1000))
    as [Hkeep Hnew].
  split; [by apply Hkeep|]. by apply Hnew.
Defined.

(** A second trip is created while the sequences are in order: they stay
    so. *)
Lemma DatabaseStorage_keeps_ids_below_sequences_witness :
  db_wf (DatabaseStorage.createTrip (sample_trip in_progress 1000)
           [false; false; true] (fleet_on_trip 1000 1000)).1.2 ∧
  seq_le (fleet_on_trip 1000 1000)
    (DatabaseStorage.createTrip (sample_trip in_progress 1000)
       [false; false; true] (fleet_on_trip 1000 1000)).1.2.
Proof.
  apply (proj1 (proj2 (proj2 (proj2 (proj2 (proj2 (proj2
           DatabaseStorage_keeps_ids_below_sequences))))))
           (sample_trip in_progress 1000) [false; false; true]
           (fleet_on_trip 1000 1000)).
  exact db_wf_fleet_on_trip.
Defined.

(** ** Bookings *)

(** X8.  Under any fault plan [createBooking] either fails with the store
    exactly as it was, or -- only when the vehicle exists and is
    [available] -- stores one new booking under the next id, with status
    defaulting to [pending] and [createdAt] the clock reading, and leaves
    vehicles, trips and maintenance records untouched: a booking does not
    occupy the vehicle.  When the store rejects nothing, the booking is
    accepted exactly when the vehicle is [available]. *)
Theorem createBooking_persists_only_for_an_available_vehicle now b d :
  (∀ fs,
     match (DatabaseStorage.createBooking now b fs d).1 with
     | (Err _, d') => d' = d
     | (Ok booking, d') =>
         (∃ v, db_vehicles d !! Booking.vehicleId b = Some v ∧
               Vehicle.status v = Some available) ∧
         booking = (seq_bookings d, created_booking now b) ∧
         Booking.status (Booking.data booking.2)
           = Some (default b_pending (Booking.status b)) ∧
         Booking.createdAt booking.2 = TimeDate (Date_at now) ∧
         db_bookings d' = <[booking.1 := booking.2]> (db_bookings d) ∧
         db_vehicles d' = db_vehicles d ∧ db_trips d' = db_trips d ∧
         db_maintenance d' = db_maintenance d
     end) ∧
  ((∃ booking, (DatabaseStorage.createBooking now b [] d).1.1 = Ok booking) ↔
   (∃ v, db_vehicles d !! Booking.vehicleId b = Some v ∧
         Vehicle.status v = Some available)).
Proof.
  split.
  - intros fs.
    destruct (createBooking_outcome now b fs d) as [(e & He)|(v & Hv & Hst & Hok)].
    + by rewrite He.
    + rewrite Hok. cbn. split; [by exists v|]. done.
  - split.
    + intros [booking Hok].
      destruct (createBooking_outcome now b [] d)
        as [(e & He)|(v & Hv & Hst & _)]; [|by exists v].
      destruct (DatabaseStorage.createBooking now b [] d) as [[r d'] fs'].
      cbn in *. congruence.
    + intros (v & Hv & Hst). unfold DatabaseStorage.createBooking.
      run. by eexists.
Qed.

(** ** Deleting trips and maintenance records *)

(** X9.  An administrator's [DELETE /api/trips/:id] and
    [DELETE /api/maintenance/:id] remove an existing record whatever its
    status -- there is no check for [in_progress] -- and answer 204; no
    vehicle is touched, so the vehicle of a deleted [in_progress] trip
    stays [in_use] and that of a deleted open maintenance record stays in
    [maintenance]. *)
Theorem delete_routes_do_not_guard_or_release d id u :
  role u = admin →
  (∀ t, db_trips d !! id = Some t →
     ∃ d', Routes.delete_trip (Some u) id [] d = (Ok (NoContent 204), d', []) ∧
           db_trips d' = delete id (db_trips d) ∧
           db_vehicles d' = db_vehicles d ∧
           db_maintenance d' = db_maintenance d ∧
           db_bookings d' = db_bookings d) ∧
  (∀ m, db_maintenance d !! id = Some m →
     ∃ d', Routes.delete_maintenance (Some u) id [] d
             = (Ok (NoContent 204), d', []) ∧
           db_maintenance d' = delete id (db_maintenance d) ∧
           db_vehicles d' = db_vehicles d ∧
           db_trips d' = db_trips d ∧
           db_bookings d' = db_bookings d).
Proof.
  intros Hrole. split.
  - intros t Ht.
    unfold Routes.delete_trip, Routes.checkRole_reply, DatabaseStorage.deleteTrip.
    rewrite Hrole, (bool_decide_eq_true_2 (admin ∈ [admin])) by left.
    run. by eexists.
  - intros m Hm.
    unfold Routes.delete_maintenance, Routes.checkRole_reply,
      DatabaseStorage.deleteMaintenance.
    rewrite Hrole, (bool_decide_eq_true_2 (admin ∈ [admin])) by left.
    run. by eexists.
Qed.

(** The trip in progress on vehicle 1 is deleted; vehicle 1 is still
    [in_use]. *)
Lemma delete_routes_do_not_guard_or_release_witness :
  ∃ d', Routes.delete_trip (Some (mkUser 1 admin)) 1 [] (fleet_on_trip 1000 1000)
          = (Ok (NoContent 204), d', []) ∧
        db_trips d' = delete 1 (db_trips (fleet_on_trip 1000 1000)) ∧
        db_vehicles d' = db_vehicles (fleet_on_trip 1000 1000) ∧
        db_maintenance d' = db_maintenance (fleet_on_trip 1000 1000) ∧
        db_bookings d' = db_bookings (fleet_on_trip 1000 1000).
Proof.
  apply (proj1 (delete_routes_do_not_guard_or_release (fleet_on_trip 1000 1000) 1
                  (mkUser 1 admin) eq_refl) (sample_trip in_progress 1000)).
  reflexivity.
Defined.

(** ** Who may update a trip or a booking *)




(** ** Composing the lifecycle operations *)

Lemma set_status_mileage_after_status s s' o v :
  Vehicle.set_status_mileage s o (Vehicle.set_status s' v)
  = Vehicle.set_status_mileage s o v.
Proof. by destruct v. Qed.

(** The vehicles of the store after an [in_progress] trip was created on an
    [available] vehicle and then completed. *)
Lemma start_then_complete_vehicles d t v p X :
  Trip.status t = Some in_progress →
  db_vehicles d !! Trip.vehicleId t = Some v →
  Vehicle.status v = Some available →
  completes_trip p X →
  ∃ row d2,
    DatabaseStorage.updateTrip (seq_trips d) p []
      (DatabaseStorage.createTrip t [] d).1.2
      = (Ok (Some (seq_trips d, row)), d2, []) ∧
    Trip.status row = Some completed ∧
    db_trips d2 = <[seq_trips d := row]> (db_trips d) ∧
    db_vehicles d2 =
      <[Trip.vehicleId t :=
          Vehicle.set_status_mileage available
            (number_or (Some X) (Vehicle.mileage v)) v]> (db_vehicles d).
Proof.
  intros Hst Hv Hav (Hpst & Hend & Hodo & Hvid).
  destruct (processed_fields p) as (Hst' & _ & Hvid').
  rewrite createTrip_run. cbn [fst snd].
  rewrite updateTrip_run. cbn [db_trips db_vehicles]. rewrite lookup_insert_eq.
  rewrite decide_True by done.
  rewrite Hpst, Hend, Hodo, bool_decide_eq_true_2 by done. cbn [andb mjoin].
  assert (Hsame : Trip.vehicleId
            (Trip.merge (created_trip t) (DatabaseStorage.processed_update p))
          = Trip.vehicleId t) by (cbn; by rewrite Hvid', Hvid).
  cbv zeta. rewrite Hsame.
  unfold flip_status, release_vehicle. rewrite Hv, decide_True by done.
  rewrite lookup_insert_eq, decide_True by done.
  eexists _, _. split; [reflexivity|]. cbn.
  rewrite Hst', Hpst. split; [done|].
  by rewrite !insert_insert_eq, set_status_mileage_after_status.
Qed.

(** X11.  Started and then completed: creating an [in_progress] trip on an
    [available] vehicle and completing it with a non-zero [endOdometer] [X]
    leaves the vehicle [available] again with mileage [X], every other
    vehicle and every other field of this one as before, and the trip
    stored as [completed]. *)
Theorem start_then_complete_trip d t v p X :
  Trip.status t = Some in_progress →
  db_vehicles d !! Trip.vehicleId t = Some v →
  Vehicle.status v = Some available →
  completes_trip p X →
  X ≠ 0 →
  ∃ row d2,
    DatabaseStorage.updateTrip (seq_trips d) p []
      (DatabaseStorage.createTrip t [] d).1.2
      = (Ok (Some (seq_trips d, row)), d2, []) ∧
    Trip.status <$> db_trips d2 !! seq_trips d = Some (Some completed) ∧
    db_vehicles d2 =
      <[Trip.vehicleId t := Vehicle.set_status_mileage available (Some X) v]>
        (db_vehicles d).
Proof.
  intros Hst Hv Hav Hp HX.
  destruct (start_then_complete_vehicles d t v p X Hst Hv Hav Hp)
    as (row & d2 & Hrun & Hrow & Htrips & Hvs).
  exists row, d2. split; [done|]. split.
  - by rewrite Htrips, lookup_insert_eq; cbn; rewrite Hrow.
  - rewrite Hvs. unfold number_or. cbn.
    by rewrite (proj2 (Z.eqb_neq X 0) HX).
Qed.

Lemma start_then_complete_trip_witness :
  ∃ row d2,
    DatabaseStorage.updateTrip 1 (complete_trip 1200) []
      (DatabaseStorage.createTrip (sample_trip in_progress 1000) []
         (fleet available 1000)).1.2
      = (Ok (Some (1, row)), d2, []) ∧
    Trip.status <$> db_trips d2 !! 1 = Some (Some completed) ∧
    db_vehicles d2 =
      <[1 := Vehicle.set_status_mileage available (Some 1200)
               (sample_vehicle available 1000)]>
        (db_vehicles (fleet available 1000)).
Proof.
  apply (start_then_complete_trip (fleet available 1000)
           (sample_trip in_progress 1000) (sample_vehicle available 1000)
           (complete_trip 1200) 1200);
    [reflexivity | reflexivity | reflexivity | by vm_compute | lia].
Defined.

(** X12.  Two trips on one vehicle: a second [in_progress] trip can be
    created on a vehicle that the first one has put [in_use]; completing
    the first then sets the vehicle [available] although the second trip
    is still stored as [in_progress]. *)
Theorem completing_one_trip_releases_a_vehicle_still_on_another d t1 t2 v p X :
  Trip.status t1 = Some in_progress →
  Trip.status t2 = Some in_progress →
  Trip.vehicleId t2 = Trip.vehicleId t1 →
  db_vehicles d !! Trip.vehicleId t1 = Some v →
  Vehicle.status v = Some available →
  completes_trip p X →
  ∃ d3 row,
    (DatabaseStorage.updateTrip (seq_trips d) p []
       (DatabaseStorage.createTrip t2 []
          (DatabaseStorage.createTrip t1 [] d).1.2).1.2).1
      = (Ok (Some (seq_trips d, row)), d3) ∧
    Vehicle.status <$> db_vehicles d3 !! Trip.vehicleId t1
      = Some (Some available) ∧
    Trip.status <$> db_trips d3 !! seq_trips d = Some (Some completed) ∧
    Trip.status <$> db_trips d3 !! (seq_trips d + 1) = Some (Some in_progress).
Proof.
  intros Hst1 Hst2 Hveh Hv Hav (Hpst & Hend & Hodo & Hvid).
  destruct (processed_fields p) as (Hst' & _ & Hvid').
  rewrite !createTrip_run. cbn [fst snd db_trips db_vehicles seq_trips].
  rewrite updateTrip_run. cbn [db_trips db_vehicles].
  rewrite lookup_insert_ne by lia. rewrite lookup_insert_eq.
  rewrite !decide_True by done.
  rewrite Hpst, Hend, Hodo, bool_decide_eq_true_2 by done. cbn [andb mjoin].
  assert (Hsame : Trip.vehicleId
            (Trip.merge (created_trip t1) (DatabaseStorage.processed_update p))
          = Trip.vehicleId t1) by (cbn; by rewrite Hvid', Hvid).
  cbv zeta. rewrite Hsame, Hveh.
  unfold flip_status at 2. rewrite Hv, decide_True by done.
  unfold flip_status. rewrite lookup_insert_eq.
  rewrite decide_False by (cbn; congruence).
  unfold release_vehicle. rewrite lookup_insert_eq, decide_True by done.
  eexists _, _. split; [reflexivity|]. cbn.
  rewrite !lookup_insert_eq. cbn. rewrite Hst', Hpst.
  split; [done|]. split; [done|].
  rewrite lookup_insert_ne by lia. rewrite lookup_insert_eq. cbn.
  by rewrite Hst2.
Qed.

Lemma completing_one_trip_releases_a_vehicle_still_on_another_witness :
  ∃ d3 row,
    (DatabaseStorage.updateTrip 1 (complete_trip 1200) []
       (DatabaseStorage.createTrip (sample_trip in_progress 1000) []
          (DatabaseStorage.createTrip (sample_trip in_progress 1000) []
             (fleet available 1000)).1.2).1.2).1
      = (Ok (Some (1, row)), d3) ∧
    Vehicle.status <$> db_vehicles d3 !! 1 = Some (Some available) ∧
    Trip.status <$> db_trips d3 !! 1 = Some (Some completed) ∧
    Trip.status <$> db_trips d3 !! (1 + 1) = Some (Some in_progress).
Proof.
  apply (completing_one_trip_releases_a_vehicle_still_on_another
           (fleet available 1000) (sample_trip in_progress 1000)
           (sample_trip in_progress 1000) (sample_vehicle available 1000)
           (complete_trip 1200) 1200);
    [reflexivity | reflexivity | reflexivity | reflexivity | reflexivity
    | by vm_compute].
Defined.

(** X13.  While a trip is in progress its vehicle cannot be booked, and
    after the trip is completed it can: on a vehicle that an [in_progress]
    trip has put [in_use], [createBooking] throws "Vehicle not available
    (status: in_use)" and stores nothing; once the trip is completed the
    same booking is stored. *)
Theorem booking_refused_during_a_trip_and_accepted_after now b d t v p X :
  Trip.status t = Some in_progress →
  db_vehicles d !! Trip.vehicleId t = Some v →
  Vehicle.status v = Some available →
  Booking.vehicleId b = Trip.vehicleId t →
  completes_trip p X →
  DatabaseStorage.createBooking now b []
    (DatabaseStorage.createTrip t [] d).1.2
    = (Err (JsError "Vehicle not available (status: in_use)"),
       (DatabaseStorage.createTrip t [] d).1.2, []) ∧
  ∃ booking d3,
    DatabaseStorage.createBooking now b []
      (DatabaseStorage.updateTrip (seq_trips d) p []
         (DatabaseStorage.createTrip t [] d).1.2).1.2
      = (Ok booking, d3, []) ∧
    db_bookings d3 !! booking.1 = Some booking.2.
Proof.
  intros Hst Hv Hav Hb Hp. split.
  - rewrite createTrip_run. cbn [fst snd].
    rewrite decide_True by done.
    unfold flip_status. rewrite Hv, decide_True by done.
    unfold DatabaseStorage.createBooking. cbn.
    unfold select_by_id. rewrite Hb, lookup_insert_eq. by cbn.
  - destruct (start_then_complete_vehicles d t v p X Hst Hv Hav Hp)
      as (row & d2 & Hrun & _ & _ & Hvs).
    rewrite Hrun. cbn [fst snd].
    unfold DatabaseStorage.createBooking. cbn.
    unfold select_by_id. rewrite Hb, Hvs, lookup_insert_eq. cbn.
    eexists _, _. split; [reflexivity|]. cbn. by rewrite lookup_insert_eq.
Qed.

Lemma booking_refused_during_a_trip_and_accepted_after_witness :
  DatabaseStorage.createBooking 1704096000000 sample_booking_request []
    (DatabaseStorage.createTrip (sample_trip in_progress 1000) []
       (fleet available 1000)).1.2
    = (Err (JsError "Vehicle not available (status: in_use)"),
       (DatabaseStorage.createTrip (sample_trip in_progress 1000) []
          (fleet available 1000)).1.2, []) ∧
  ∃ booking d3,
    DatabaseStorage.createBooking 1704096000000 sample_booking_request []
      (DatabaseStorage.updateTrip 1 (complete_trip 1200) []
         (DatabaseStorage.createTrip (sample_trip in_progress 1000) []
            (fleet available 1000)).1.2).1.2
      = (Ok booking, d3, []) ∧
    db_bookings d3 !! booking.1 = Some booking.2.
Proof.
  apply (booking_refused_during_a_trip_and_accepted_after 1704096000000
           sample_booking_request (fleet available 1000)
           (sample_trip in_progress 1000) (sample_vehicle available 1000)
           (complete_trip 1200) 1200);
    [reflexivity | reflexivity | reflexivity | reflexivity | by vm_compute].
Defined.

(** ** The two storages compared, continued *)

(** X14.  Completing a maintenance record without a [completedAt]: the two
    storages part ways.  [DatabaseStorage.updateMaintenance] looks at the
    status alone and sets the vehicle [available]; [MemStorage] also wants
    a truthy [completedAt] and leaves the vehicle in [maintenance]. *)
Theorem updateMaintenance_storages_differ_without_completedAt m d id r v p :
  JsMap.get (maintenances m) id = Some r →
  db_maintenance d !! id = Some r →
  JsMap.get (vehicles m) (Maintenance.vehicleId r) = Some v →
  db_vehicles d !! Maintenance.vehicleId r = Some v →
  Vehicle.status v = Some maintenance →
  Maintenance.p_status p = Some m_completed →
  Maintenance.has_completedAt p = false →
  Maintenance.p_vehicleId p = None →
  JsMap.get (vehicles (MemStorage.updateMaintenance id p m).2)
            (Maintenance.vehicleId r) = Some v ∧
  db_vehicles (DatabaseStorage.updateMaintenance id p [] d).1.2
    !! Maintenance.vehicleId r = Some (Vehicle.set_status available v).
Proof.
  intros Hmr Hdr Hmv Hdv Hst Hpst Hno Hvid.
  destruct (processed_maintenance_fields p) as (_ & Hvid').
  split.
  - unfold MemStorage.updateMaintenance. rewrite Hmr, Hno, andb_false_r. by cbn.
  - rewrite updateMaintenance_run, Hdr. cbn [fst snd db_vehicles].
    rewrite decide_True by done.
    assert (Hsame : Maintenance.vehicleId
              (Maintenance.merge r (processed_maintenance p))
            = Maintenance.vehicleId r) by (cbn; by rewrite Hvid', Hvid).
    cbv zeta. rewrite Hsame. unfold flip_status.
    rewrite Hdv, decide_True by done. by rewrite lookup_insert_eq.
Qed.

Lemma updateMaintenance_storages_differ_without_completedAt_witness :
  JsMap.get
    (vehicles (MemStorage.updateMaintenance 1 complete_without_completedAt
                 (mkMem [(1, sample_vehicle maintenance 1000)]
                        [(1, sample_maintenance m_pending 19723)] [] []
                        2 2 1 1)).2) 1
    = Some (sample_vehicle maintenance 1000) ∧
  db_vehicles
    (DatabaseStorage.updateMaintenance 1 complete_without_completedAt []
       (mkDb {[ 1 := sample_vehicle maintenance 1000 ]}
             {[ 1 := sample_maintenance m_pending 19723 ]} ∅ ∅ 2 2 1 1)).1.2
    !! 1 = Some (Vehicle.set_status available (sample_vehicle maintenance 1000)).
Proof.
  apply (updateMaintenance_storages_differ_without_completedAt
           (mkMem [(1, sample_vehicle maintenance 1000)]
                  [(1, sample_maintenance m_pending 19723)] [] [] 2 2 1 1)
           (mkDb {[ 1 := sample_vehicle maintenance 1000 ]}
                 {[ 1 := sample_maintenance m_pending 19723 ]} ∅ ∅ 2 2 1 1)
           1 (sample_maintenance m_pending 19723)
           (sample_vehicle maintenance 1000) complete_without_completedAt);
    reflexivity.
Defined.

(** X15.  For an update that does not move the trip to another vehicle,
    [MemStorage.updateTrip] and [DatabaseStorage.updateTrip] leave the
    trip's vehicle in the same state: starting from stores that agree on
    the trip and on its vehicle, they agree on that vehicle afterwards. *)
Theorem updateTrip_storages_agree_on_the_vehicle m d id t p :
  JsMap.get (trips m) id = Some t →
  db_trips d !! id = Some t →
  JsMap.get (vehicles m) (Trip.vehicleId t) = db_vehicles d !! Trip.vehicleId t →
  Trip.p_vehicleId p = None →
  JsMap.get (vehicles (MemStorage.updateTrip id p m).2) (Trip.vehicleId t)
  = db_vehicles (DatabaseStorage.updateTrip id p [] d).1.2 !! Trip.vehicleId t.
Proof.
  intros Hmt Hdt Hsame Hvid.
  destruct (processed_fields p) as (_ & _ & Hvid').
  rewrite updateTrip_run, Hdt. cbn [fst snd db_vehicles].
  assert (Hveh : Trip.vehicleId
            (Trip.merge t (DatabaseStorage.processed_update p))
          = Trip.vehicleId t) by (cbn; by rewrite Hvid', Hvid).
  cbv zeta. rewrite Hveh.
  unfold MemStorage.updateTrip, release_vehicle. rewrite Hmt. cbn.
  destruct (bool_decide (Trip.p_status p = Some completed) && Trip.has_endTime p);
    [|done].
  rewrite Hsame.
  destruct (db_vehicles d !! Trip.vehicleId t) as [v|] eqn:Hv;
    [|cbn; by rewrite Hsame, Hv].
  destruct (decide (Vehicle.status v = Some in_use)); cbn.
  - by rewrite JsMap_get_set_eq, lookup_insert_eq.
  - by rewrite Hsame, Hv.
Qed.

Lemma updateTrip_storages_agree_on_the_vehicle_witness :
  JsMap.get
    (vehicles (MemStorage.updateTrip 1 (complete_trip 1200)
                 (mkMem [(1, sample_vehicle in_use 1000)] []
                        [(1, sample_trip in_progress 1000)] [] 2 1 2 1)).2) 1
  = db_vehicles
      (DatabaseStorage.updateTrip 1 (complete_trip 1200) []
         (fleet_on_trip 1000 1000)).1.2 !! 1.
Proof.
  apply (updateTrip_storages_agree_on_the_vehicle
           (mkMem [(1, sample_vehicle in_use 1000)] []
                  [(1, sample_trip in_progress 1000)] [] 2 1 2 1)
           (fleet_on_trip 1000 1000) 1 (sample_trip in_progress 1000)
           (complete_trip 1200));
    reflexivity.
Defined.


(** ** Listing vehicles *)







(** ** Dashboard figures *)

Lemma count_status_partition (vs : list (Z * Vehicle.t)) :
  (Routes.count_status available vs + Routes.count_status maintenance vs +
   Routes.count_status out_of_service vs + Routes.count_status in_use vs +
   length (filter (λ v, Vehicle.status v.2 = None) vs))%nat = length vs.
Proof.
  unfold Routes.count_status. induction vs as [|[k v] vs IH]; [done|].
  rewrite !filter_cons. cbn [snd].
  destruct (Vehicle.status v) as [[]|] eqn:E;
    repeat (first [rewrite decide_True by done | rewrite decide_False by done]);
    cbn [length]; lia.
Qed.

(** X17.  The dashboard counts every vehicle once: the figures for
    available, in-maintenance and out-of-service vehicles never add up to
    more than the total, the difference being the vehicles [in_use] (and
    those without a status); the total is the number of stored vehicles
    and [activeTrips] the number of trips [in_progress]. *)
Theorem dashboard_stats_count_each_vehicle_once u d :
  ∃ stats,
    Routes.dashboard_stats (Some u) [] d = (Ok (StatsJson stats), d, []) ∧
    totalVehicles stats = size (db_vehicles d) ∧
    (availableVehicles stats + inMaintenance stats + outOfService stats
     ≤ totalVehicles stats)%nat ∧
    (availableVehicles stats + inMaintenance stats + outOfService stats +
     Routes.count_status in_use (map_to_list (db_vehicles d)) +
     length (filter (λ v, Vehicle.status v.2 = None) (map_to_list (db_vehicles d)))
     = totalVehicles stats)%nat ∧
    activeTrips stats =
      length (filter (λ t, Trip.status t.2 = Some in_progress)
                     (map_to_list (db_trips d))).
Proof.
  eexists. split; [reflexivity|]. cbn.
  pose proof (count_status_partition (map_to_list (db_vehicles d))) as Hp.
  split; [by rewrite length_map_to_list|]. split; [lia|]. split; [done|].
  unfold select_where. f_equal. apply list_filter_iff. intros [k t]. cbn.
  by rewrite bool_decide_eq_true.
Qed.


(** ** MemStorage: keys and counters *)

Lemma JsMap_get_Some_key {V} (m : list (Z * V)) (k : Z) (v : V) :
  JsMap.get m k = Some v → k ∈ m.*1.
Proof.
  induction m as [|[k' v'] m IH]; cbn; [done|].
  destruct (decide (k' = k)) as [->|Hne]; intros H.
  - left.
  - right. by apply IH.
Qed.

Lemma JsMap_get_None_key {V} (m : list (Z * V)) (k : Z) :
  k ∉ m.*1 → JsMap.get m k = None.
Proof.
  induction m as [|[k' v'] m IH]; cbn; [done|].
  intros Hk. apply not_elem_of_cons in Hk as [Hne Hk].
  rewrite decide_False by done. by apply IH.
Qed.

(** Setting a key that is present keeps the order of the keys. *)
Lemma JsMap_set_present_keys {V} (m : list (Z * V)) (k : Z) (v : V) :
  k ∈ m.*1 → (JsMap.set m k v).*1 = m.*1.
Proof.
  induction m as [|[k' v'] m IH]; cbn; [by intros ?%elem_of_nil|].
  destruct (decide (k' = k)) as [->|Hne]; cbn; [done|].
  intros [?|Hk]%elem_of_cons; [congruence|]. by rewrite IH.
Qed.

(** Setting a key that is absent appends the entry. *)
Lemma JsMap_set_absent {V} (m : list (Z * V)) (k : Z) (v : V) :
  k ∉ m.*1 → JsMap.set m k v = (m ++ [(k, v)])%list.
Proof.
  induction m as [|[k' v'] m IH]; cbn; [done|].
  intros Hk. apply not_elem_of_cons in Hk as [Hne Hk].
  rewrite decide_False by done. by rewrite IH.
Qed.

Lemma JsMap_delete_keys {V} (m : list (Z * V)) (k : Z) :
  (JsMap.delete m k).2.*1 `sublist_of` m.*1.
Proof.
  induction m as [|[k' v'] m IH]; cbn; [done|].
  destruct (decide (k' = k)) as [->|Hne]; cbn.
  - by apply sublist_cons.
  - destruct (JsMap.delete m k) as [b m'] eqn:E. cbn in *.
    by apply sublist_skip.
Qed.

Lemma map_wf_set_present {V} (m : list (Z * V)) (c k : Z) (v v0 : V) :
  map_wf m c → JsMap.get m k = Some v0 → map_wf (JsMap.set m k v) c.
Proof.
  intros [Hnd Hlt] Hk. unfold map_wf.
  by rewrite JsMap_set_present_keys by (by eapply JsMap_get_Some_key).
Qed.

Lemma map_wf_fresh {V} (m : list (Z * V)) (c : Z) : map_wf m c → c ∉ m.*1.
Proof. intros [_ Hlt] Hin. specialize (Hlt c Hin). lia. Qed.

Lemma map_wf_set_new {V} (m : list (Z * V)) (c : Z) (v : V) :
  map_wf m c → map_wf (JsMap.set m c v) (c + 1).
Proof.
  intros Hwf. pose proof (map_wf_fresh m c Hwf) as Hfresh.
  destruct Hwf as [Hnd Hlt]. unfold map_wf.
  rewrite JsMap_set_absent, fmap_app by done. cbn. split.
  - apply NoDup_app. split; [done|]. split; [|apply NoDup_singleton].
    intros k Hk ?%list_elem_of_singleton. by subst.
  - intros k [Hk|Hk%list_elem_of_singleton]%elem_of_app;
      [specialize (Hlt k Hk)|]; lia.
Qed.

Lemma map_wf_delete {V} (m : list (Z * V)) (c k : Z) :
  map_wf m c → map_wf (JsMap.delete m k).2 c.
Proof.
  intros [Hnd Hlt]. pose proof (JsMap_delete_keys m k) as Hsub. split.
  - by eapply sublist_NoDup.
  - intros j Hj. apply Hlt. by eapply elem_of_sublist.
Qed.

(** The vehicle write-back of the lifecycle operations: present key. *)
Ltac mem_wf_vehicle :=
  repeat match goal with
         | |- context [JsMap.get ?m ?k] =>
             let E := fresh "E" in destruct (JsMap.get m k) eqn:E
         | |- context [decide ?P] => destruct (decide P)
         | |- context [if ?b then _ else _] => destruct b
         end;
  cbn; refine (conj _ (conj _ (conj _ _))); cbn;
  eauto using map_wf_set_present, map_wf_set_new, map_wf_delete.

Lemma mem_fleet_wf st mileage : mem_wf (mem_fleet st mileage).
Proof.
  repeat split; cbn; try apply NoDup_nil_2; try (by intros k ?%elem_of_nil).
  - apply NoDup_singleton.
  - intros k ?%list_elem_of_singleton. lia.
Qed.

Lemma mem_fleet_on_trips_wf : mem_wf mem_fleet_on_trips.
Proof.
  repeat split; cbn; try apply NoDup_nil_2; try (by intros k ?%elem_of_nil).
  - apply NoDup_singleton.
  - intros k ?%list_elem_of_singleton. lia.
  - apply NoDup_cons. split; [|apply NoDup_singleton].
    intros ?%list_elem_of_singleton. lia.
  - intros k [->|?%list_elem_of_singleton]%elem_of_cons; lia.
Qed.

(** X18.  Every writing operation of [MemStorage] keeps each of its maps
    with one entry per key and every key below the map's counter. *)
Theorem MemStorage_keeps_keys_below_counters s :
  mem_wf s →
  (∀ v, mem_wf (MemStorage.createVehicle v s).2) ∧
  (∀ id p, mem_wf (MemStorage.updateVehicle id p s).2) ∧
  (∀ id, mem_wf (MemStorage.deleteVehicle id s).2) ∧
  (∀ m, mem_wf (MemStorage.createMaintenance m s).2) ∧
  (∀ id p, mem_wf (MemStorage.updateMaintenance id p s).2) ∧
  (∀ id, mem_wf (MemStorage.deleteMaintenance id s).2) ∧
  (∀ t, mem_wf (MemStorage.createTrip t s).2) ∧
  (∀ id p, mem_wf (MemStorage.updateTrip id p s).2) ∧
  (∀ id, mem_wf (MemStorage.deleteTrip id s).2) ∧
  (∀ now b, mem_wf (MemStorage.createBooking now b s).2) ∧
  (∀ id p, mem_wf (MemStorage.updateBooking id p s).2) ∧
  (∀ id, mem_wf (MemStorage.deleteBooking id s).2).
Proof.
  intros (Hv & Hm & Ht & Hb). unfold mem_wf.
  split; [intros v; unfold MemStorage.createVehicle; mem_wf_vehicle|].
  split; [intros id p; unfold MemStorage.updateVehicle; mem_wf_vehicle|].
  split; [intros id; unfold MemStorage.deleteVehicle;
          pose proof (map_wf_delete _ _ id Hv);
          destruct (JsMap.delete (vehicles s) id); cbn in *;
          by refine (conj _ (conj _ (conj _ _)))|].
  split; [intros m; unfold MemStorage.createMaintenance; cbn; mem_wf_vehicle|].
  split; [intros id p; unfold MemStorage.updateMaintenance; cbn; mem_wf_vehicle|].
  split; [intros id; unfold MemStorage.deleteMaintenance;
          pose proof (map_wf_delete _ _ id Hm);
          destruct (JsMap.delete (maintenances s) id); cbn in *;
          by refine (conj _ (conj _ (conj _ _)))|].
  split; [intros t; unfold MemStorage.createTrip; cbn; mem_wf_vehicle|].
  split; [intros id p; unfold MemStorage.updateTrip; cbn; mem_wf_vehicle|].
  split; [intros id; unfold MemStorage.deleteTrip;
          pose proof (map_wf_delete _ _ id Ht);
          destruct (JsMap.delete (trips s) id); cbn in *;
          by refine (conj _ (conj _ (conj _ _)))|].
  split; [intros now b; unfold MemStorage.createBooking; cbn; mem_wf_vehicle|].
  split; [intros id p; unfold MemStorage.updateBooking; mem_wf_vehicle|].
  intros id; unfold MemStorage.deleteBooking;
    pose proof (map_wf_delete _ _ id Hb);
    destruct (JsMap.delete (bookings s) id); cbn in *;
          by refine (conj _ (conj _ (conj _ _))).
Qed.

Lemma MemStorage_keeps_keys_below_counters_witness :
  mem_wf (mem_fleet available 1000) ∧
  mem_wf (MemStorage.createTrip (sample_trip in_progress 1000)
            (mem_fleet available 1000)).2.
Proof.
  split; [apply mem_fleet_wf|].
  exact (proj1 (proj2 (proj2 (proj2 (proj2 (proj2 (proj2
           (MemStorage_keeps_keys_below_counters _
              (mem_fleet_wf available 1000)))))))) _).
Defined.



Lemma JsMap_get_delete {V} (m : list (Z * V)) (k j : Z) :
  NoDup m.*1 →
  JsMap.get (JsMap.delete m k).2 j =
    if decide (j = k) then None else JsMap.get m j.
Proof.
  induction m as [|[k' v'] m IH]; cbn; [by destruct (decide (j = k))|].
  intros [Hk' Hnd]%NoDup_cons. specialize (IH Hnd).
  destruct (decide (k' = k)) as [->|Hne]; cbn.
  - destruct (decide (j = k)) as [->|Hj].
    + by apply JsMap_get_None_key.
    + by rewrite decide_False by done.
  - destruct (JsMap.delete m k) as [b m'] eqn:E. cbn in *.
    destruct (decide (k' = j)) as [->|Hj]; [|done].
    by rewrite decide_False by done.
Qed.

Lemma JsMap_delete_found {V} (m : list (Z * V)) (k : Z) :
  (JsMap.delete m k).1 = bool_decide (is_Some (JsMap.get m k)).
Proof.
  induction m as [|[k' v'] m IH]; cbn; [done|].
  destruct (decide (k' = k)) as [->|Hne]; cbn; [done|].
  by destruct (JsMap.delete m k) as [b m'] eqn:E.
Qed.

(** X19.  In a [MemStorage] whose keys lie below its counters, each create
    puts the new record, under the counter's value, behind all entries of
    its map: nothing stored is overwritten, and the maps keep the order of
    creation. *)
Theorem MemStorage_create_appends s :
  mem_wf s →
  (∀ v, vehicles (MemStorage.createVehicle v s).2 =
          (vehicles s ++ [(vehicleIdCounter s, v)])%list) ∧
  (∀ m, maintenances (MemStorage.createMaintenance m s).2 =
          (maintenances s ++ [(maintenanceIdCounter s, m)])%list) ∧
  (∀ t, trips (MemStorage.createTrip t s).2 =
          (trips s ++ [(tripIdCounter s, t)])%list) ∧
  (∀ now b, MemStorage.listAllBookings (MemStorage.createBooking now b s).2 =
          (MemStorage.listAllBookings s ++
             [(MemStorage.createBooking now b s).1])%list).
Proof.
  intros (Hv & Hm & Ht & Hb).
  split; [intros v; cbn; by apply JsMap_set_absent, map_wf_fresh|].
  split.
  { intros m. rewrite <- (JsMap_set_absent (maintenances s)) by
      by apply map_wf_fresh.
    unfold MemStorage.createMaintenance. cbn.
    destruct (JsMap.get (vehicles s) (Maintenance.vehicleId m)); [|done].
    by destruct (decide (Vehicle.status t = Some available)). }
  split.
  { intros t. rewrite <- (JsMap_set_absent (trips s)) by by apply map_wf_fresh.
    unfold MemStorage.createTrip. cbn.
    destruct (JsMap.get (vehicles s) (Trip.vehicleId t)) as [v|]; [|done].
    by destruct (decide (Vehicle.status v = Some available)). }
  intros now b. unfold MemStorage.listAllBookings, JsMap.values. cbn.
  by apply JsMap_set_absent, map_wf_fresh.
Qed.

(** A third trip comes behind the two stored ones, which stay as they
    are. *)
Lemma MemStorage_create_appends_witness :
  mem_wf mem_fleet_on_trips ∧
  trips (MemStorage.createTrip (sample_trip planned 1500)
           mem_fleet_on_trips).2 =
    [(1, sample_trip in_progress 1000); (2, sample_trip planned 1200);
     (3, sample_trip planned 1500)].
Proof.
  split; [apply mem_fleet_on_trips_wf|].
  exact (proj1 (proj2 (proj2
           (MemStorage_create_appends _ mem_fleet_on_trips_wf))) _).
Defined.

Lemma JsMap_delete_appended {V} (m : list (Z * V)) (k : Z) (v : V) :
  k ∉ m.*1 → JsMap.delete (m ++ [(k, v)])%list k = (true, m).
Proof.
  induction m as [|[k' v'] m IH]; cbn.
  - intros _. by rewrite decide_True.
  - intros Hk. apply not_elem_of_cons in Hk as [Hne Hk].
    rewrite decide_False by done. by rewrite IH.
Qed.

(** X20.  In a [MemStorage] with one entry per key and every key below its
    counter, a delete removes the record with the given id and no other,
    answers whether there was one, and leaves the vehicles as they are:
    deleting a trip or a maintenance record releases no vehicle.  So a trip
    created on an [available] vehicle and deleted again leaves the trips as
    they were but the vehicle [in_use], and likewise a maintenance record
    leaves the vehicle in [maintenance]. *)
Theorem MemStorage_delete_removes_that_record s :
  mem_wf s →
  (∀ id k, MemStorage.getMaintenance k (MemStorage.deleteMaintenance id s).2 =
             if decide (k = id) then None else MemStorage.getMaintenance k s) ∧
  (∀ id k, MemStorage.getTrip k (MemStorage.deleteTrip id s).2 =
             if decide (k = id) then None else MemStorage.getTrip k s) ∧
  (∀ id k, MemStorage.getBooking k (MemStorage.deleteBooking id s).2 =
             if decide (k = id) then None else MemStorage.getBooking k s) ∧
  (∀ id, (MemStorage.deleteMaintenance id s).1 =
           bool_decide (is_Some (MemStorage.getMaintenance id s)) ∧
         (MemStorage.deleteTrip id s).1 =
           bool_decide (is_Some (MemStorage.getTrip id s)) ∧
         (MemStorage.deleteBooking id s).1 =
           bool_decide (is_Some (MemStorage.getBooking id s))) ∧
  (∀ id, vehicles (MemStorage.deleteMaintenance id s).2 = vehicles s ∧
         vehicles (MemStorage.deleteTrip id s).2 = vehicles s ∧
         vehicles (MemStorage.deleteBooking id s).2 = vehicles s) ∧
  (∀ t v,
     MemStorage.getVehicle (Trip.vehicleId t) s = Some v →
     Vehicle.status v = Some available →
     trips (MemStorage.deleteTrip (MemStorage.createTrip t s).1.1
              (MemStorage.createTrip t s).2).2 = trips s ∧
     MemStorage.getVehicle (Trip.vehicleId t)
       (MemStorage.deleteTrip (MemStorage.createTrip t s).1.1
          (MemStorage.createTrip t s).2).2
       = Some (Vehicle.set_status in_use v)) ∧
  (∀ r v,
     MemStorage.getVehicle (Maintenance.vehicleId r) s = Some v →
     Vehicle.status v = Some available →
     maintenances
       (MemStorage.deleteMaintenance (MemStorage.createMaintenance r s).1.1
          (MemStorage.createMaintenance r s).2).2 = maintenances s ∧
     MemStorage.getVehicle (Maintenance.vehicleId r)
       (MemStorage.deleteMaintenance (MemStorage.createMaintenance r s).1.1
          (MemStorage.createMaintenance r s).2).2
       = Some (Vehicle.set_status maintenance v)).
Proof.
  intros (Hv & Hm & Ht & Hb).
  pose proof (map_wf_fresh _ _ Hm) as Hfm.
  pose proof (map_wf_fresh _ _ Ht) as Hft.
  destruct Hm as [Hm _], Ht as [Ht _], Hb as [Hb _].
  unfold MemStorage.getMaintenance, MemStorage.getTrip, MemStorage.getBooking,
    MemStorage.getVehicle, MemStorage.deleteMaintenance, MemStorage.deleteTrip,
    MemStorage.deleteBooking.
  split; [intros id k; rewrite <- (JsMap_get_delete _ id k Hm);
          by destruct (JsMap.delete (maintenances s) id)|].
  split; [intros id k; rewrite <- (JsMap_get_delete _ id k Ht);
          by destruct (JsMap.delete (trips s) id)|].
  split; [intros id k; rewrite <- (JsMap_get_delete _ id k Hb);
          by destruct (JsMap.delete (bookings s) id)|].
  split.
  { intros id. rewrite <- !JsMap_delete_found.
    by destruct (JsMap.delete (maintenances s) id),
         (JsMap.delete (trips s) id), (JsMap.delete (bookings s) id). }
  split.
  { intros id.
    by destruct (JsMap.delete (maintenances s) id),
         (JsMap.delete (trips s) id), (JsMap.delete (bookings s) id). }
  split.
  - intros t v Hveh Hav. unfold MemStorage.createTrip. cbn.
    rewrite Hveh, decide_True by done. cbn.
    rewrite JsMap_set_absent, JsMap_delete_appended by done. cbn.
    split; [done|]. apply JsMap_get_set_eq.
  - intros r v Hveh Hav. unfold MemStorage.createMaintenance. cbn.
    rewrite Hveh, decide_True by done. cbn.
    rewrite JsMap_set_absent, JsMap_delete_appended by done. cbn.
    split; [done|]. apply JsMap_get_set_eq.
Qed.

(** Trip 1, in progress, is deleted: trip 2 stays, and vehicle 1 stays
    [in_use]. *)
Lemma MemStorage_delete_removes_that_record_witness :
  mem_wf mem_fleet_on_trips ∧
  MemStorage.getTrip 1 mem_fleet_on_trips
    = Some (sample_trip in_progress 1000) ∧
  (MemStorage.deleteTrip 1 mem_fleet_on_trips).1 = true ∧
  MemStorage.getTrip 1 (MemStorage.deleteTrip 1 mem_fleet_on_trips).2 = None ∧
  MemStorage.getTrip 2 (MemStorage.deleteTrip 1 mem_fleet_on_trips).2
    = Some (sample_trip planned 1200) ∧
  vehicles (MemStorage.deleteTrip 1 mem_fleet_on_trips).2
    = [(1, sample_vehicle in_use 1000)].
Proof.
  pose (MemStorage_delete_removes_that_record _ mem_fleet_on_trips_wf) as H.
  split; [apply mem_fleet_on_trips_wf|]. split; [reflexivity|].
  split; [exact (proj1 (proj2 (proj1 (proj2 (proj2 (proj2 H))) 1)))|].
  split; [exact (proj1 (proj2 H) 1 1)|].
  split; [exact (proj1 (proj2 H) 1 2)|].
  exact (proj1 (proj2 (proj1 (proj2 (proj2 (proj2 (proj2 H)))) 1))).
Defined.

(** ** User accounts *)

Lemma select_where_head_None {V} (cond : Z * V → bool) (tbl : gmap Z V) :
  head (select_where cond tbl) = None →
  ∀ k r, tbl !! k = Some r → cond (k, r) = false.
Proof.
  unfold select_where. intros Hhead k r Hk.
  destruct (cond (k, r)) eqn:Hc; [|done].
  assert ((k, r) ∈ filter (λ kr, cond kr = true) (map_to_list tbl)) as Hin.
  { apply list_elem_of_filter. split; [done|]. by apply elem_of_map_to_list. }
  destruct (filter (λ kr, cond kr = true) (map_to_list tbl)); [|done].
  by apply elem_of_nil in Hin.
Qed.

Lemma select_where_head_Some {V} (cond : Z * V → bool) (tbl : gmap Z V) k r :
  head (select_where cond tbl) = Some (k, r) →
  tbl !! k = Some r ∧ cond (k, r) = true.
Proof.
  unfold select_where. intros Hhead.
  assert ((k, r) ∈ filter (λ kr, cond kr = true) (map_to_list tbl)) as Hin.
  { destruct (filter (λ kr, cond kr = true) (map_to_list tbl));
      simplify_eq/=. left. }
  apply list_elem_of_filter in Hin as [Hc Hin].
  by apply elem_of_map_to_list in Hin.
Qed.

Lemma users_wf_insert d a :
  users_wf d →
  (∀ k r, db_users d !! k = Some r →
          Account.username r ≠ Account.username a) →
  users_wf (mkUserDb (<[seq_users d := a]> (db_users d)) (seq_users d + 1)).
Proof.
  intros [Hid Huniq] Hfresh. split; cbn.
  - intros k [r Hk]. destruct (decide (k = seq_users d)) as [->|Hne]; [lia|].
    rewrite lookup_insert_ne in Hk by done.
    specialize (Hid k (mk_is_Some _ _ Hk)). lia.
  - intros k1 k2 a1 a2 H1 H2 Hname.
    destruct (decide (k1 = seq_users d)) as [->|Hne1],
             (decide (k2 = seq_users d)) as [->|Hne2]; [done| | |].
    + rewrite lookup_insert_eq in H1. rewrite lookup_insert_ne in H2 by done.
      simplify_eq. by destruct (Hfresh _ _ H2).
    + rewrite lookup_insert_eq in H2. rewrite lookup_insert_ne in H1 by done.
      simplify_eq. by destruct (Hfresh _ _ H1).
    + rewrite lookup_insert_ne in H1, H2 by done. eauto.
Qed.

Lemma users_wf_delete d k :
  users_wf d → users_wf (mkUserDb (delete k (db_users d)) (seq_users d)).
Proof.
  intros [Hid Huniq]. split; cbn.
  - intros j [r [_ Hj]%lookup_delete_Some]. eauto.
  - intros k1 k2 a1 a2 [_ H1]%lookup_delete_Some [_ H2]%lookup_delete_Some.
    eauto.
Qed.

Lemma staff_wf : users_wf staff.
Proof.
  split; cbn.
  - intros k [r Hk].
    apply lookup_insert_Some in Hk as [[<- _]|[_ Hk]]; [lia|].
    apply lookup_singleton_Some in Hk as [<- _]. lia.
  - intros k1 k2 a1 a2 H1 H2 Hname.
    apply lookup_insert_Some in H1
      as [[<- <-]|[? [<- <-]%lookup_singleton_Some]];
    apply lookup_insert_Some in H2
      as [[<- <-]|[? [<- <-]%lookup_singleton_Some]];
    done.
Qed.

(** The outcome of [POST /api/users] under any fault plan: an account is
    stored only with the answer 201. *)
Lemma post_user_outcome hashPassword user reqBody fs d :
  let out := UserRoutes.post_user hashPassword user reqBody fs d in
  (out.1.2 = d ∧ out.1.1 ≠ Ok (201, Some (seq_users d))) ∨
  (∃ u userData,
     user = Some u ∧ role u = admin ∧ reqBody = Valid userData ∧
     (∀ k r, db_users d !! k = Some r →
             Account.username r ≠ Account.i_username userData) ∧
     out.1.1 = Ok (201, Some (seq_users d)) ∧
     out.1.2 =
       mkUserDb
         (<[seq_users d :=
              Account.of_insert
                (Account.set_password
                   (hashPassword (Account.i_password userData)) userData)]>
            (db_users d))
         (seq_users d + 1)).
Proof.
  assert (∀ userData,
            head (select_where
                    (λ r : Z * Account.t,
                       (Account.username r.2 =? Account.i_username userData)%string)
                    (db_users d)) = None →
            ∀ k r, db_users d !! k = Some r →
                   Account.username r ≠ Account.i_username userData) as Hnone.
  { intros userData Hex k r Hk Hname.
    pose proof (select_where_head_None _ _ Hex k r Hk) as Hc. cbn in Hc.
    by apply String.eqb_neq in Hc. }
  unfold UserRoutes.post_user. destruct user as [u|]; [|by left].
  case_bool_decide as Hrole; [by left|].
  assert (role u = admin) by (by destruct (role u)).
  destruct reqBody as [|userData]; [by left|].
  cbn. destruct fs as [|[] fs]; cbn; [|by left|].
  - destruct (head (select_where _ (db_users d))) as [existing|] eqn:Hex;
      cbn; [by left|].
    right. exists u, userData. split_and!; auto. by apply Hnone.
  - destruct (head (select_where _ (db_users d))) as [existing|] eqn:Hex;
      cbn; [by left|].
    destruct fs as [|[] fs]; cbn; [|by left|];
      right; exists u, userData; split_and!; auto; by apply Hnone.
Qed.

(** The outcome of [DELETE /api/users/:id] under any fault plan. *)
Lemma delete_user_outcome user id fs d :
  let out := UserRoutes.delete_user user id fs d in
  (out.1.2 = d ∧ out.1.1 ≠ Ok 200) ∨
  (∃ u a,
     user = Some u ∧ role u = admin ∧ user_id u ≠ id ∧
     db_users d !! id = Some a ∧ Account.role a = moderator ∧
     out.1.1 = Ok 200 ∧
     out.1.2 = mkUserDb (delete id (db_users d)) (seq_users d)).
Proof.
  unfold UserRoutes.delete_user, UserStorage.getUser, UserStorage.deleteUser,
    select_by_id, delete_by_id.
  destruct user as [u|]; [|by left].
  case_bool_decide as Hrole; cbn; [|by left].
  apply list_elem_of_singleton in Hrole.
  case_bool_decide as Hself; [by left|].
  cbn. destruct fs as [|[] fs]; cbn; [|by left|].
  all: destruct (db_users d !! id) as [a|] eqn:Ha; cbn; [|by left].
  all: case_bool_decide as Hadmin; [by left|]; cbn.
  all: assert (Account.role a = moderator) by (by destruct (Account.role a)).
  all: rewrite ?Ha; cbn.
  - right. exists u, a. split_and!; auto.
  - destruct fs as [|[] fs]; cbn; rewrite ?Ha; cbn; [|by left|];
      right; exists u, a; split_and!; auto.
Qed.

(** X21.  Under any fault plan, [POST /api/users] and
    [DELETE /api/users/:id] keep the account ids below the sequence and the
    usernames distinct. *)
Theorem user_routes_keep_usernames_unique d :
  users_wf d →
  (∀ hashPassword user reqBody fs,
     users_wf (UserRoutes.post_user hashPassword user reqBody fs d).1.2) ∧
  (∀ user id fs, users_wf (UserRoutes.delete_user user id fs d).1.2).
Proof.
  intros Hwf. split.
  - intros h user reqBody fs.
    destruct (post_user_outcome h user reqBody fs d)
      as [[-> _]|(u & userData & _ & _ & _ & Hfresh & _ & ->)]; [done|].
    by apply users_wf_insert.
  - intros user id fs.
    destruct (delete_user_outcome user id fs d)
      as [[-> _]|(u & a & _ & _ & _ & _ & _ & _ & ->)]; [done|].
    by apply users_wf_delete.
Qed.

Lemma user_routes_keep_usernames_unique_witness :
  users_wf staff ∧
  users_wf (UserRoutes.post_user (λ p, p) (Some (mkUser 1 admin))
              (Valid sample_insert) [] staff).1.2.
Proof.
  split; [apply staff_wf|].
  exact (proj1 (user_routes_keep_usernames_unique _ staff_wf) _ _ _ _).
Defined.

(** X22.  Under any fault plan, [POST /api/users] stores an account only
    when the requester is an administrator, the body is valid and no
    account has the username; the account is then stored under a new id
    with the hashed password in place of the submitted one and with the
    role [moderator] unless the body names one.  In every other case the
    table is left as it was. *)
Theorem post_user_stores_only_for_an_administrator
    hashPassword user reqBody fs d :
  let out := UserRoutes.post_user hashPassword user reqBody fs d in
  (db_users out.1.2 = db_users d ∧
   out.1.1 ≠ Ok (201, Some (seq_users d))) ∨
  (∃ u userData,
     user = Some u ∧ role u = admin ∧ reqBody = Valid userData ∧
     (∀ k r, db_users d !! k = Some r →
             Account.username r ≠ Account.i_username userData) ∧
     out.1.1 = Ok (201, Some (seq_users d)) ∧
     (∀ k, k ≠ seq_users d → db_users out.1.2 !! k = db_users d !! k) ∧
     ∃ a, db_users out.1.2 !! seq_users d = Some a ∧
          Account.username a = Account.i_username userData ∧
          Account.password a = hashPassword (Account.i_password userData) ∧
          Account.role a = default moderator (Account.i_role userData)).
Proof.
  destruct (post_user_outcome hashPassword user reqBody fs d)
    as [[Hd Hne]|(u & userData & Hu & Hrole & Hbody & Hfresh & Hok & Hd)];
    [left; cbv zeta; by rewrite Hd|].
  right. exists u, userData. cbv zeta. rewrite Hd. cbn.
  split_and!; try done.
  - intros k Hk. by rewrite lookup_insert_ne.
  - eexists. by rewrite lookup_insert_eq.
Qed.

(** X23.  Under any fault plan, [DELETE /api/users/:id] removes at most the
    account with the given id, and removes it only for an administrator
    other than that account, and only if the account is a moderator's: the
    requester's own account and every administrator's account stay.  The
    answer is 200 exactly when the account was removed. *)
Theorem delete_user_spares_self_and_administrators user id fs d :
  let out := UserRoutes.delete_user user id fs d in
  (∀ k a, db_users d !! k = Some a →
          k ≠ id ∨ Account.role a = admin ∨
          (∀ u, user = Some u → role u ≠ admin ∨ user_id u = k) →
          db_users out.1.2 !! k = Some a) ∧
  (∀ k, db_users out.1.2 !! k = None → k ≠ id → db_users d !! k = None) ∧
  (out.1.1 = Ok 200 ↔
   is_Some (db_users d !! id) ∧ db_users out.1.2 !! id = None).
Proof.
  destruct (delete_user_outcome user id fs d)
    as [[Hd Hne]|(u & a & Hu & Hrole & Hself & Ha & Hmod & Hok & Hd)];
    cbv zeta; rewrite Hd.
  - split_and!; try done. split; [done|].
    intros [[a Ha] Hnone]. congruence.
  - cbn. split_and!.
    + intros k b Hb [Hk|[Hadm|Hreq]].
      * by rewrite lookup_delete_ne.
      * destruct (decide (k = id)) as [->|Hk]; [congruence|].
        by rewrite lookup_delete_ne.
      * destruct (Hreq u Hu) as [?|<-]; [done|]. by rewrite lookup_delete_ne.
    + intros k Hk Hne. by rewrite lookup_delete_ne in Hk.
    + split; [|done]. intros _. split; [by eexists|].
      by rewrite lookup_delete_eq.
Qed.
